(** * The tracker scraper of the torrent client (tracker_scraper.go)

    A shallow embedding of [trackerScraper]: address resolution ([getIp]),
    the endpoint string ([trackerUrl]), one announce attempt ([announce]),
    the announce loop ([Run]) and the status line ([statusLine]), together
    with the properties the design document states about them.

    Go values are embedded as follows.
    - [int64], [time.Duration] and [time.Time] are integers of [Z]; the
      wrap-around of [int64] arithmetic is written out ([wrap64]).
    - [string] is [String.string]; [net.IP] (a byte slice) is a list of
      byte values, the nil slice being the empty list.
    - an [error] value is kept with its origin and its text.
    - the outside world (name lookup, blocklist, tracker exchange, clock,
      the session's signals) is an explicit environment argument. *)

From Stdlib Require Import ZArith List String Ascii Bool Lia DecimalString.
Import ListNotations.

Local Open Scope string_scope.
Local Open Scope Z_scope.

(** ** Machine integers *)

(** Two's complement reduction of an integer to [int64]. *)
Definition wrap64 (z : Z) : Z := (z + 2 ^ 63) mod 2 ^ 64 - 2 ^ 63.

Definition int64_mul (a b : Z) : Z := wrap64 (a * b).

(** Go's [/] on integers truncates toward zero. *)
Definition int64_quo (a b : Z) : Z := wrap64 (Z.quot a b).

Definition in_int32 (z : Z) : Prop := - 2 ^ 31 <= z < 2 ^ 31.
Definition in_int64 (z : Z) : Prop := - 2 ^ 63 <= z < 2 ^ 63.

(** ** Package time *)

Module time.

(** A [Duration] is an [int64] count of nanoseconds. *)
Definition Duration := Z.

(** A [Time] is an instant, counted in nanoseconds from the zero [Time]
    (January 1, year 1, 00:00 UTC).  The seconds field of a Go [Time] is
    an [int64] of its own, so instants do not wrap where durations do. *)
Definition Time := Z.

Definition Second : Duration := 1000000000.
Definition Minute : Duration := 60 * Second.

Definition minDuration : Duration := - 2 ^ 63.
Definition maxDuration : Duration := 2 ^ 63 - 1.

Definition Add (t : Time) (d : Duration) : Time := t + d.

(** [t.Sub(u)]: the difference, saturated to the range of [Duration]. *)
Definition Sub (t u : Time) : Duration :=
  if t - u <? minDuration then minDuration
  else if maxDuration <? t - u then maxDuration
  else t - u.

(** [time.Until(t)] is [t.Sub(time.Now())]; the clock reading is the
    first argument. *)
Definition Until (now t : Time) : Duration := Sub t now.

Definition IsZero (t : Time) : bool := t =? 0.

End time.

(** ** Strings *)

Module strings.

(** Index of the last occurrence of [c] in [s]; [None] is Go's [-1]. *)
Fixpoint LastIndexByte (s : string) (c : ascii) : option nat :=
  match s with
  | EmptyString => None
  | String x s' =>
      match LastIndexByte s' c with
      | Some i => Some (S i)
      | None => if Ascii.eqb x c then Some O else None
      end
  end.

Fixpoint IndexByte (s : string) (c : ascii) : option nat :=
  match s with
  | EmptyString => None
  | String x s' =>
      if Ascii.eqb x c then Some O
      else match IndexByte s' c with
           | Some i => Some (S i)
           | None => None
           end
  end.

(** The slices [s[:n]] and [s[n:]]. *)
Fixpoint take (n : nat) (s : string) : string :=
  match n, s with
  | O, _ => EmptyString
  | S _, EmptyString => EmptyString
  | S n', String x s' => String x (take n' s')
  end.

Fixpoint drop (n : nat) (s : string) : string :=
  match n, s with
  | O, _ => s
  | S _, EmptyString => EmptyString
  | S n', String _ s' => drop n' s'
  end.

Definition HasPrefix (s p : string) : bool := String.prefix p s.

Definition HasSuffix (s p : string) : bool :=
  String.eqb (drop (String.length s - String.length p) s) p
  && (String.length p <=? String.length s)%nat.

Fixpoint all_bytes (f : ascii -> bool) (s : string) : bool :=
  match s with
  | EmptyString => true
  | String x s' => f x && all_bytes f s'
  end.

End strings.

(** ** Package net/url and net: the host part of a URL *)

Definition is_digit (b : ascii) : bool :=
  (48 <=? nat_of_ascii b)%nat && (nat_of_ascii b <=? 57)%nat.

(** [validOptionalPort]: empty, or a colon followed by digits only. *)
Definition validOptionalPort (port : string) : bool :=
  match port with
  | EmptyString => true
  | String c rest => Ascii.eqb c ":" && strings.all_bytes is_digit rest
  end.

(** [splitHostPort] of net/url: cut at the last colon when what follows is
    a valid port, then strip the square brackets of an IPv6 literal. *)
Definition splitHostPort (hostPort : string) : string * string :=
  let '(host, port) :=
    match strings.LastIndexByte hostPort ":" with
    | Some colon =>
        if validOptionalPort (strings.drop colon hostPort)
        then (strings.take colon hostPort, strings.drop (S colon) hostPort)
        else (hostPort, "")
    | None => (hostPort, "")
    end in
  let host :=
    if strings.HasPrefix host "[" && strings.HasSuffix host "]"
    then strings.take (String.length host - 2) (strings.drop 1 host)
    else host in
  (host, port).

(** [net.JoinHostPort]: a host with a colon in it is taken for an IPv6
    literal and bracketed. *)
Definition JoinHostPort (host port : string) : string :=
  match strings.IndexByte host ":" with
  | Some _ => "[" ++ host ++ "]:" ++ port
  | None => host ++ ":" ++ port
  end.

Module url.

(** The fields of [url.URL] the scraper reads or writes; [Rest] stands
    for the others (user, path, query, fragment), which it only carries
    along. *)
Record URL (R : Type) : Type := mkURL {
  Scheme : string;
  Host : string;
  Rest : R
}.
Arguments mkURL {R} _ _ _.
Arguments Scheme {R} _.
Arguments Host {R} _.
Arguments Rest {R} _.

Definition Hostname {R} (u : URL R) : string := fst (splitHostPort (Host u)).
Definition Port {R} (u : URL R) : string := snd (splitHostPort (Host u)).

Definition set_Host {R} (u : URL R) (h : string) : URL R :=
  mkURL (Scheme u) h (Rest u).

End url.

(** ** Addresses and errors *)

(** A [net.IP]: the bytes of the address, each in [0, 256). *)
Definition IP := list Z.

(** An [error] value with where it was made: by [errors.New] or
    [fmt.Errorf] in this file, by the resolver of package net, or by the
    tracker client. *)
Inductive error : Type :=
| errors_New (text : string)
| net_error (text : string)
| tracker_error (text : string).

Definition Error (e : error) : string :=
  match e with
  | errors_New s | net_error s | tracker_error s => s
  end.

(** [fmt.Errorf(prefix + "%s", err)]. *)
Definition fmt_Errorf (prefix : string) (err : error) : error :=
  errors_New (prefix ++ Error err).

Definition IPv4len : nat := 4.
Definition IPv6len : nat := 16.

(** [ip.To4()]: the 4-byte form of an IPv4 address (given as 4 bytes or as
    an IPv4-mapped 16 bytes), [None] (Go's nil) for anything else. *)
Definition To4 (ip : IP) : option IP :=
  if Nat.eqb (List.length ip) IPv4len then Some ip
  else if Nat.eqb (List.length ip) IPv6len
          && forallb (Z.eqb 0) (firstn 10 ip)
          && Z.eqb (nth 10 ip 0) 255
          && Z.eqb (nth 11 ip 0) 255
  then Some (firstn 4 (skipn 12 ip))
  else None.

(** ** Package tracker: what the scraper exchanges with the tracker client *)

Module tracker.

Inductive AnnounceEvent : Type := None | Completed | Started | Stopped.

Record AnnounceResponse (P : Type) : Type := mkAnnounceResponse {
  Interval : Z;   (* int32: seconds until the next announce *)
  Peers : list P
}.
Arguments mkAnnounceResponse {P} _ _.
Arguments Interval {P} _.
Arguments Peers {P} _.

End tracker.

(** ** The scraper *)

Record trackerAnnounceResult : Type := mkResult {
  Err : option error;
  NumPeers : Z;
  Interval : time.Duration;
  Completed : time.Time
}.

(** The zero value of the struct. *)
Definition zeroResult : trackerAnnounceResult := mkResult None 0 0 0.

Definition set_Err (r : trackerAnnounceResult) (e : error) :=
  mkResult (Some e) (NumPeers r) (Interval r) (Completed r).
Definition set_NumPeers (r : trackerAnnounceResult) (n : Z) :=
  mkResult (Err r) n (Interval r) (Completed r).
Definition set_Interval (r : trackerAnnounceResult) (d : time.Duration) :=
  mkResult (Err r) (NumPeers r) d (Completed r).
Definition set_Completed (r : trackerAnnounceResult) (t : time.Time) :=
  mkResult (Err r) (NumPeers r) (Interval r) t.

Section Scraper.

(** Types of the session and of the tracker client that the scraper only
    passes on: the remaining fields of a URL, the announce request, the
    peers of a response, the session's peer records, the proxy setting. *)
Context {R Request TrackerPeer Peers Proxy : Type}.

(** [u.String()] and [ip.String()]; [strconv.Quote], which formats the
    verb [%q]; [d.String()] of a [time.Duration]. *)
Variable URL_String : url.URL R -> string.
Variable IP_String : IP -> string.
Variable strconv_Quote : string -> string.
Variable Duration_String : time.Duration -> string.

(** [Peers(nil).AppendFromTracker]. *)
Variable AppendFromTracker : list TrackerPeer -> Peers.

Record trackerScraper : Type := mkScraper {
  u : url.URL R;
  lastAnnounce : trackerAnnounceResult
}.

(** The [tracker.Announce] struct handed to the tracker client. *)
Record Announce : Type := mkAnnounce {
  HTTPProxy : Proxy;
  UserAgent : string;
  TrackerUrl : string;
  AnnounceRequest : Request;
  HostHeader : string;
  ServerName : string;
  UdpNetwork : string;
  ClientIp4 : IP;
  ClientIp6 : IP
}.

(** What one announce attempt meets outside the scraper: the torrent
    [me.t], its client [me.t.cl] with its configuration, the resolver,
    the tracker client and the clock.  A failing call gives the text of
    its error. *)
Record world : Type := mkWorld {
  net_LookupIP : string -> list IP * option string;
  ipIsBlocked : IP -> bool;
  announceRequest : tracker.AnnounceEvent -> Request;
  cfg_HTTPProxy : Proxy;
  cfg_HTTPUserAgent : string;
  cfg_PublicIp4 : IP;
  cfg_PublicIp6 : IP;
  tracker_Do : Announce -> tracker.AnnounceResponse TrackerPeer * option string;
  (** the reading of [time.Now()] when the attempt returns *)
  time_Now : time.Time
}.

(** The [for _, ip = range ips] loop of [getIp]; [ip] is the named
    result, which the loop assigns at each round. *)
Fixpoint getIp_range (blocked : IP -> bool) (scheme : string)
    (ips : list IP) (ip : IP) : IP * option error :=
  match ips with
  | [] => (ip, Some (errors_New "no acceptable ips"))
  | ip :: rest =>
      if blocked ip then getIp_range blocked scheme rest ip
      else if String.eqb scheme "udp4" then
        match To4 ip with
        | None => getIp_range blocked scheme rest ip
        | Some _ => (ip, None)
        end
      else if String.eqb scheme "udp6" then
        match To4 ip with
        | Some _ => getIp_range blocked scheme rest ip
        | None => (ip, None)
        end
      else (ip, None)
  end.

Definition getIp (w : world) (me : trackerScraper) : IP * option error :=
  let '(ips, err) := net_LookupIP w (url.Hostname (u me)) in
  match err with
  | Some e => ([], Some (net_error e))
  | None =>
      if Nat.eqb (List.length ips) 0
      then ([], Some (errors_New "no ips"))
      else getIp_range (ipIsBlocked w) (url.Scheme (u me)) ips []
  end.

(** The local copy [u] of [trackerUrl] once the host has been rewritten. *)
Definition trackerUrl_u (me : trackerScraper) (ip : IP) : url.URL R :=
  let u := u me in
  if negb (String.eqb (url.Port u) "")
  then url.set_Host u (JoinHostPort (IP_String ip) (url.Port u))
  else u.

Definition trackerUrl (me : trackerScraper) (ip : IP) : string :=
  URL_String (trackerUrl_u me ip).

(** What an attempt does to the outside, in order. *)
Inductive effect : Type :=
| EffLog (url : string) (req : Request)
| EffDo (a : Announce)
| EffAddPeers (ps : Peers).

(** One announce attempt.  [stamp] is the deferred function: it runs
    after the body has returned on whichever path, and writes the named
    result. *)
Definition announce (w : world) (me : trackerScraper)
    (event : tracker.AnnounceEvent) : trackerAnnounceResult * list effect :=
  let stamp (ret : trackerAnnounceResult) := set_Completed ret (time_Now w) in
  let ret := zeroResult in
  let ret := set_Interval ret time.Minute in
  let '(ip, err) := getIp w me in
  match err with
  | Some err =>
      let ret := set_Err ret (fmt_Errorf "error getting ip: " err) in
      (stamp ret, [])
  | None =>
      let req := announceRequest w event in
      let a := {|
        HTTPProxy := cfg_HTTPProxy w;
        UserAgent := cfg_HTTPUserAgent w;
        TrackerUrl := trackerUrl me ip;
        AnnounceRequest := req;
        HostHeader := url.Host (u me);
        ServerName := url.Hostname (u me);
        UdpNetwork := url.Scheme (u me);
        ClientIp4 := cfg_PublicIp4 w;
        ClientIp6 := cfg_PublicIp6 w
      |} in
      let '(res, err) := tracker_Do w a in
      match err with
      | Some err =>
          let ret := set_Err ret (fmt_Errorf "error announcing: " (tracker_error err)) in
          (stamp ret, [EffLog (URL_String (u me)) req; EffDo a])
      | None =>
          let ret := set_NumPeers ret (Z.of_nat (List.length (tracker.Peers res))) in
          let ret := set_Interval ret (int64_mul (tracker.Interval res) time.Second) in
          (stamp ret,
           [EffLog (URL_String (u me)) req; EffDo a;
            EffAddPeers (AppendFromTracker (tracker.Peers res))])
      end
  end.

(** *** The announce loop

    [Run] does not return until the torrent is closed, and it blocks on
    channels in between.  It is embedded as a machine over its control
    points, which takes one step per thing the outside supplies: the
    world of an announce attempt, the state of [wantPeers] at the
    non-blocking [select], the case that lets the blocking [select]
    proceed. *)

Inductive pc : Type :=
| AtAnnounce    (* line 147, [ar := me.announce(e)] *)
| AtWait        (* line 154, the label [wait] *)
| AtSelect      (* line 177, the blocking [select] *)
| AtDeferred    (* the deferred [me.announceStopped()] *)
| Returned.

Inductive ready : Type := ReadyClosed | ReadyWantPeers | ReadyTimer.

Inductive input : Type :=
| InWorld (w : world)
| InWantPeers (asserted : bool)
| InSelect (c : ready).

(** The locals of [Run], the scraper it writes to, and what it has done
    so far: the events of the attempts it issued and their effects.
    [wantPeers = false] is the nil channel, on which no receive ever
    proceeds. *)
Record state : Type := mkState {
  at_ : pc;
  me : trackerScraper;
  e : tracker.AnnounceEvent;
  ar : trackerAnnounceResult;
  interval : time.Duration;
  wantPeers : bool;
  issued : list tracker.AnnounceEvent;
  effects : list effect
}.

Definition Run_start (me : trackerScraper) : state :=
  mkState AtAnnounce me tracker.Started zeroResult 0 false [] [].

(** Lines 156 to 159. *)
Definition floor_interval (ar : trackerAnnounceResult) : time.Duration :=
  let interval := Interval ar in
  if interval <? time.Minute then time.Minute else interval.

(** The duration given to [time.After] at line 183. *)
Definition timer (now : time.Time) (ar : trackerAnnounceResult)
    (interval : time.Duration) : time.Duration :=
  time.Until now (time.Add (Completed ar) interval).

Definition step (s : state) (i : input) : option state :=
  match at_ s, i with
  | AtAnnounce, InWorld w =>
      let '(ar, effs) := announce w (me s) (e s) in
      Some (mkState AtWait (mkScraper (u (me s)) ar) tracker.None ar
              (interval s) (wantPeers s)
              (issued s ++ [e s]) (effects s ++ effs))
  | AtWait, InWantPeers asserted =>
      let interval := floor_interval (ar s) in
      if asserted then
        let interval :=
          if time.Minute <? interval then time.Minute else interval in
        Some (mkState AtSelect (me s) (e s) (ar s) interval false
                (issued s) (effects s))
      else
        Some (mkState AtSelect (me s) (e s) (ar s) interval true
                (issued s) (effects s))
  | AtSelect, InSelect ReadyClosed =>
      Some (mkState AtDeferred (me s) (e s) (ar s) (interval s)
              (wantPeers s) (issued s) (effects s))
  | AtSelect, InSelect ReadyWantPeers =>
      if wantPeers s then
        Some (mkState AtWait (me s) (e s) (ar s) (interval s)
                (wantPeers s) (issued s) (effects s))
      else None
  | AtSelect, InSelect ReadyTimer =>
      Some (mkState AtAnnounce (me s) (e s) (ar s) (interval s)
              (wantPeers s) (issued s) (effects s))
  | AtDeferred, InWorld w =>
      let '(_, effs) := announce w (me s) tracker.Stopped in
      Some (mkState Returned (me s) (e s) (ar s) (interval s)
              (wantPeers s)
              (issued s ++ [tracker.Stopped]) (effects s ++ effs))
  | _, _ => None
  end.

(** The run of the machine on what the outside supplies, in order. *)
Fixpoint exec (s : state) (ins : list input) : option state :=
  match ins with
  | [] => Some s
  | i :: ins' =>
      match step s i with
      | Some s' => exec s' ins'
      | None => None
      end
  end.

Definition Run (me : trackerScraper) (ins : list input) : option state :=
  exec (Run_start me) ins.

(** *** The status line *)

Definition TAB : string := String (ascii_of_nat 9) EmptyString.

(** [fmt.Sprintf("%d peers", n)]. *)
Definition Sprintf_peers (n : Z) : string :=
  DecimalString.NilZero.string_of_int (Z.to_int n) ++ " peers".

Definition statusLine (now : time.Time) (ts : trackerScraper) : string :=
  strconv_Quote (URL_String (u ts))
  ++ TAB
  ++ (let na :=
        time.Until now
          (time.Add (Completed (lastAnnounce ts)) (Interval (lastAnnounce ts))) in
      if 0 <? na then
        let na := int64_quo na time.Second in
        let na := int64_mul na time.Second in
        Duration_String na
      else "anytime")
  ++ TAB
  ++ (match Err (lastAnnounce ts) with
      | Some err => Error err
      | None =>
          if time.IsZero (Completed (lastAnnounce ts)) then "never"
          else Sprintf_peers (NumPeers (lastAnnounce ts))
      end).

End Scraper.

(** ** The rest of the scraper *)

(** [URL()]: the URL of the endpoint. *)
Definition URL {R : Type} (me : @trackerScraper R) : url.URL R := u me.

(** [announceStopped]: one attempt with [Stopped], the result of which is
    dropped; what is left of it is what it did to the outside. *)
Definition announceStopped {R Request TrackerPeer Peers Proxy : Type}
    (URL_String : url.URL R -> string) (IP_String : IP -> string)
    (AppendFromTracker : list TrackerPeer -> Peers)
    (w : @world Request TrackerPeer Proxy) (me : @trackerScraper R)
    : list (@effect Request Peers Proxy) :=
  snd (announce URL_String IP_String AppendFromTracker w me tracker.Stopped).

(** The number of attempts that a sequence of inputs pays for. *)
Fixpoint count_worlds {Request TrackerPeer Proxy : Type}
    (ins : list (@input Request TrackerPeer Proxy)) : nat :=
  match ins with
  | [] => O
  | InWorld _ :: ins' => S (count_worlds ins')
  | _ :: ins' => count_worlds ins'
  end.

(** The loop is over, or has only its deferred attempt left. *)
Definition leaving (p : pc) : bool :=
  match p with
  | AtDeferred | Returned => true
  | _ => false
  end.

(** ** The design document's vocabulary *)

Definition is_nil (o : option IP) : bool :=
  match o with Some _ => false | None => true end.

(** The family filter of the Address Resolver: an IPv4-only scheme keeps
    IPv4 addresses, an IPv6-only scheme keeps those that are not IPv4, any
    other scheme keeps all. *)
Definition family_matches (scheme : string) (ip : IP) : bool :=
  if String.eqb scheme "udp4" then negb (is_nil (To4 ip))
  else if String.eqb scheme "udp6" then is_nil (To4 ip)
  else true.

(** A candidate survives when the blocklist lets it through and its family
    matches the scheme. *)
Definition acceptable (blocked : IP -> bool) (scheme : string) (ip : IP) : bool :=
  negb (blocked ip) && family_matches scheme ip.

(** The two ways the Address Resolver fails. *)
Inductive failure_kind : Type := ResolutionFailure | NoAcceptableAddress.

(** The kind of failure read off the returned error: an error of the
    resolver itself or the "no ips" error is a resolution failure, the
    "no acceptable ips" error is the other kind. *)
Definition kind_of (err : option error) : option failure_kind :=
  match err with
  | Some (net_error _) => Some ResolutionFailure
  | Some (errors_New s) =>
      if String.eqb s "no ips" then Some ResolutionFailure
      else if String.eqb s "no acceptable ips" then Some NoAcceptableAddress
      else None
  | _ => None
  end.

(** A host text in square brackets, which [splitHostPort] would strip. *)
Definition bracketed (host : string) : bool :=
  strings.HasPrefix host "[" && strings.HasSuffix host "]".

(** The wait the loop is in: the whole-second part of a duration. *)
Definition whole_seconds (d : time.Duration) : Z := d / time.Second.

(** The events a loop may have issued when it stands at a control point:
    nothing yet, or [Started] and then only [None], with [Stopped] closing
    the list once the loop has returned and not before. *)
Definition events_ok {R Request Peers Proxy : Type}
    (s : @state R Request Peers Proxy) : Prop :=
  match at_ s with
  | AtAnnounce =>
      (issued s = [] /\ e s = tracker.Started)
      \/ (exists k, issued s = tracker.Started :: repeat tracker.None k
                    /\ e s = tracker.None)
  | AtWait | AtSelect | AtDeferred =>
      exists k, issued s = tracker.Started :: repeat tracker.None k
                /\ e s = tracker.None
  | Returned =>
      exists k, issued s
                = (tracker.Started :: repeat tracker.None k ++ [tracker.Stopped])%list
  end.

(** A text without a line feed. *)
Definition one_line (s : string) : bool :=
  strings.all_bytes (fun c => negb (Ascii.eqb c (ascii_of_nat 10))) s.

(** ** A small session to run the definitions on *)

Module Example.

(** [u.String()] for a URL of a scheme, a host and a path that need no
    escaping. *)
Definition URL_String (u : url.URL string) : string :=
  url.Scheme u ++ "://" ++ url.Host u ++ url.Rest u.

Definition Itoa (n : Z) : string :=
  DecimalString.NilZero.string_of_int (Z.to_int n).

(** [ip.String()] for an IPv4 address: dotted decimal.  Other addresses
    are given the text of the nil address. *)
Definition IP_String (ip : IP) : string :=
  match To4 ip with
  | Some [a; b; c; d] => Itoa a ++ "." ++ Itoa b ++ "." ++ Itoa c ++ "." ++ Itoa d
  | _ => "<nil>"
  end.

Definition DQUOTE : string := String (ascii_of_nat 34) EmptyString.

(** [strconv.Quote] for a text with nothing to escape. *)
Definition Quote (s : string) : string := DQUOTE ++ s ++ DQUOTE.

(** [d.String()] for a duration of whole seconds, none negative: hours and
    minutes are written once they are reached. *)
Definition Duration_String (d : time.Duration) : string :=
  let u := d / time.Second in
  let s := Itoa (u mod 60) ++ "s" in
  let u := u / 60 in
  if 0 <? u then
    let s := Itoa (u mod 60) ++ "m" ++ s in
    let u := u / 60 in
    if 0 <? u then Itoa u ++ "h" ++ s else s
  else s.

Definition blocked_v4 : IP := [10; 0; 0; 1].
Definition allowed_v4 : IP := [93; 184; 216; 34].
Definition allowed_v6 : IP := [32; 1; 13; 184; 0; 0; 0; 0; 0; 0; 0; 0; 0; 0; 0; 1].

Definition udp4_scraper : trackerScraper :=
  mkScraper (url.mkURL "udp4" "tracker.example.com:6969" "/announce") zeroResult.

Definition http_scraper : trackerScraper :=
  mkScraper (url.mkURL "http" "tracker.example.com" "/announce") zeroResult.

Definition blocklist (ip : IP) : bool :=
  match ip with
  | [10; _; _; _] => true
  | _ => false
  end.

(** Instants: nanoseconds from the zero instant; [t0] is some day in 2026. *)
Definition t0 : time.Time := 63900000000 * time.Second.

(** A world in which the name resolves to three candidates and the tracker
    answers with [n] peers and an interval of [secs] seconds. *)
Definition answering (secs : Z) (n : nat) (now : time.Time) : @world unit nat unit :=
  mkWorld
    (fun _ => ([blocked_v4; allowed_v4; allowed_v6], None))
    blocklist
    (fun _ => tt)
    tt "example-agent" [] []
    (fun _ => (tracker.mkAnnounceResponse secs (seq 0 n), None))
    now.

(** A world in which the name does not resolve. *)
Definition unresolved (now : time.Time) : @world unit nat unit :=
  mkWorld
    (fun _ => ([], Some "lookup tracker.example.com: no such host"))
    blocklist (fun _ => tt) tt "example-agent" [] []
    (fun _ => (tracker.mkAnnounceResponse 0 [], None))
    now.

(** A world in which the tracker exchange fails. *)
Definition failing (now : time.Time) : @world unit nat unit :=
  mkWorld
    (fun _ => ([allowed_v4], None))
    blocklist (fun _ => tt) tt "example-agent" [] []
    (fun _ => (tracker.mkAnnounceResponse 0 [], Some "connection refused"))
    now.

(** A world in which every candidate is on the blocklist. *)
Definition all_blocked (now : time.Time) : @world unit nat unit :=
  mkWorld
    (fun _ => ([blocked_v4; [10; 9; 8; 7]], None))
    blocklist (fun _ => tt) tt "example-agent" [] []
    (fun _ => (tracker.mkAnnounceResponse 0 [], None))
    now.

(** What the outside supplies to a loop that announces, is asked for more
    peers while it waits, announces again when its timer runs out, fails,
    and is closed. *)
Definition script : list (@input unit nat unit) :=
  [InWorld (answering 1800 7 t0);
   InWantPeers false; InSelect ReadyWantPeers; InWantPeers true;
   InSelect ReadyTimer;
   InWorld (failing (t0 + time.Minute));
   InWantPeers true; InSelect ReadyClosed;
   InWorld (unresolved (t0 + 90 * time.Second))].

Definition LF : string := String (ascii_of_nat 10) EmptyString.

(** A world in which the tracker exchange fails with an error whose text
    runs over two lines, as the body of an HTTP error page does. *)
Definition garbled (now : time.Time) : @world unit nat unit :=
  mkWorld
    (fun _ => ([allowed_v4], None))
    blocklist (fun _ => tt) tt "example-agent" [] []
    (fun _ => (tracker.mkAnnounceResponse 0 [],
               Some ("response from tracker: 502 Bad Gateway: <html>" ++ LF
                     ++ "</html>")))
    now.

(** A loop about to issue its first attempt. *)
Definition fresh : @state string unit (list nat) unit := Run_start udp4_scraper.

(** The scraper once an attempt that found 7 peers has been stored, the
    tracker asking for 30 minutes. *)
Definition after_success : trackerScraper :=
  mkScraper (u udp4_scraper)
    (mkResult None 7 (1800 * time.Second) t0).

Definition announce := @announce string unit nat (list nat) unit URL_String IP_String (fun ps => ps).
Definition Run := @Run string unit nat (list nat) unit URL_String IP_String (fun ps => ps).
Definition step := @step string unit nat (list nat) unit URL_String IP_String (fun ps => ps).
Definition statusLine := @statusLine string URL_String Quote Duration_String.

End Example.

(** * Properties *)

(** ** Slices and searches of strings *)

Lemma append_assoc (a b c : string) : (a ++ b) ++ c = a ++ b ++ c.
Proof. induction a as [|x a IH]; simpl; [reflexivity | now rewrite IH]. Qed.

Lemma length_append (a b : string) :
  String.length (a ++ b) = (String.length a + String.length b)%nat.
Proof. induction a as [|x a IH]; simpl; [reflexivity | now rewrite IH]. Qed.

Lemma take_append (a b : string) : strings.take (String.length a) (a ++ b) = a.
Proof. induction a as [|x a IH]; simpl; [now destruct b | now rewrite IH]. Qed.

Lemma drop_append (a b : string) : strings.drop (String.length a) (a ++ b) = b.
Proof. induction a as [|x a IH]; simpl; [reflexivity | exact IH]. Qed.

Lemma drop_S (n : nat) (s : string) :
  strings.drop (S n) s = strings.drop 1 (strings.drop n s).
Proof.
  revert s; induction n as [|n IH]; intros s.
  - reflexivity.
  - destruct s as [|x s]; [reflexivity|].
    change (strings.drop (S (S n)) (String x s)) with (strings.drop (S n) s).
    rewrite IH. reflexivity.
Qed.

Lemma digit_not_colon (c : ascii) : is_digit c = true -> Ascii.eqb c ":" = false.
Proof.
  intros H. destruct (Ascii.eqb_spec c ":") as [->|]; [discriminate H | reflexivity].
Qed.

Lemma LastIndexByte_digits (p : string) :
  strings.all_bytes is_digit p = true -> strings.LastIndexByte p ":" = None.
Proof.
  induction p as [|x p IH]; simpl; [reflexivity|].
  intros H. apply andb_prop in H. destruct H as [Hx Hp].
  rewrite (IH Hp), (digit_not_colon _ Hx). reflexivity.
Qed.

Lemma LastIndexByte_port (h p : string) :
  strings.all_bytes is_digit p = true ->
  strings.LastIndexByte (h ++ String ":" p) ":" = Some (String.length h).
Proof.
  intros Hp. induction h as [|x h IH]; simpl.
  - now rewrite (LastIndexByte_digits _ Hp).
  - now rewrite IH.
Qed.

(** Cutting a joined host and port gives the two back, brackets left on. *)
Lemma cut_at_port (h p : string) :
  strings.all_bytes is_digit p = true ->
  match strings.LastIndexByte (h ++ String ":" p) ":" with
  | Some colon =>
      if validOptionalPort (strings.drop colon (h ++ String ":" p))
      then (strings.take colon (h ++ String ":" p),
            strings.drop (S colon) (h ++ String ":" p))
      else (h ++ String ":" p, "")
  | None => (h ++ String ":" p, "")
  end = (h, p).
Proof.
  intros Hp. rewrite (LastIndexByte_port _ _ Hp).
  rewrite drop_S, drop_append, take_append. simpl. now rewrite Hp.
Qed.

Lemma HasPrefix_empty (s : string) : strings.HasPrefix s "" = true.
Proof. now destruct s. Qed.

Lemma HasSuffix_bracket (h : string) :
  strings.HasSuffix (String "[" (h ++ "]")) "]" = true.
Proof.
  unfold strings.HasSuffix. simpl String.length.
  rewrite length_append. simpl String.length.
  replace (S (String.length h + 1) - 1)%nat with (S (String.length h)) by lia.
  simpl strings.drop. rewrite drop_append. simpl.
  destruct (String.length h + 1)%nat eqn:E; [lia | reflexivity].
Qed.

(** The port that [splitHostPort] gives is made of digits. *)
Lemma splitHostPort_digits (hostPort : string) :
  strings.all_bytes is_digit (snd (splitHostPort hostPort)) = true.
Proof.
  unfold splitHostPort.
  destruct (strings.LastIndexByte hostPort ":") as [colon|]; [|reflexivity].
  destruct (validOptionalPort (strings.drop colon hostPort)) eqn:V; [|reflexivity].
  cbn [snd]. rewrite drop_S.
  destruct (strings.drop colon hostPort) as [|c rest]; [reflexivity|].
  simpl in V. apply andb_prop in V. exact (proj2 V).
Qed.

Lemma splitHostPort_Join_port (host port : string) :
  strings.all_bytes is_digit port = true ->
  snd (splitHostPort (JoinHostPort host port)) = port.
Proof.
  intros Hp. unfold JoinHostPort, splitHostPort.
  destruct (strings.IndexByte host ":").
  - replace ("[" ++ host ++ "]:" ++ port) with (("[" ++ host ++ "]") ++ String ":" port).
    + rewrite (cut_at_port _ _ Hp). reflexivity.
    + simpl. now rewrite append_assoc.
  - change (host ++ ":" ++ port) with (host ++ String ":" port).
    rewrite (cut_at_port _ _ Hp). reflexivity.
Qed.

Lemma splitHostPort_Join_host (host port : string) :
  strings.all_bytes is_digit port = true ->
  bracketed host = false ->
  fst (splitHostPort (JoinHostPort host port)) = host.
Proof.
  intros Hp Hb. unfold JoinHostPort, splitHostPort.
  destruct (strings.IndexByte host ":").
  - replace ("[" ++ host ++ "]:" ++ port) with (("[" ++ host ++ "]") ++ String ":" port)
      by (simpl; now rewrite append_assoc).
    rewrite (cut_at_port _ _ Hp).
    change ("[" ++ host ++ "]") with (String "[" (host ++ "]")).
    rewrite HasSuffix_bracket. simpl.
    rewrite length_append. simpl String.length.
    replace (String.length host + 1 - 1)%nat with (String.length host) by lia.
    rewrite HasPrefix_empty. apply take_append.
  - change (host ++ ":" ++ port) with (host ++ String ":" port).
    rewrite (cut_at_port _ _ Hp).
    unfold bracketed in Hb. rewrite Hb. reflexivity.
Qed.

(** ** The Address Resolver *)

Lemma last_cons {A} (a d : A) (l : list A) : last (a :: l) d = last l a.
Proof.
  revert a d; induction l as [|b l IH]; intros a d; [reflexivity|].
  change (last (a :: b :: l) d) with (last (b :: l) d).
  rewrite (IH b d). symmetry. apply IH.
Qed.

(** The loop of [getIp] is a search for the first candidate that survives
    both filters; when none does, the named result holds the last
    candidate the loop looked at. *)
Lemma getIp_range_find (blocked : IP -> bool) (scheme : string)
    (ips : list IP) (ip0 : IP) :
  getIp_range blocked scheme ips ip0 =
  match find (acceptable blocked scheme) ips with
  | Some ip => (ip, None)
  | None => (last ips ip0, Some (errors_New "no acceptable ips"))
  end.
Proof.
  revert ip0; induction ips as [|ip ips IH]; intros ip0; [reflexivity|].
  cbn [getIp_range find]. unfold acceptable at 1, family_matches.
  rewrite (IH ip), last_cons.
  destruct (blocked ip); cbn [negb andb]; [reflexivity|].
  destruct (String.eqb scheme "udp4").
  - destruct (To4 ip); reflexivity.
  - destruct (String.eqb scheme "udp6"); [destruct (To4 ip)|]; reflexivity.
Qed.

Lemma find_first {A} (f : A -> bool) (pre post : list A) (x : A) :
  (forall y, In y pre -> f y = false) -> f x = true ->
  find f (pre ++ x :: post) = Some x.
Proof.
  intros Hpre Hx. induction pre as [|y pre IH]; simpl.
  - now rewrite Hx.
  - rewrite (Hpre y (or_introl eq_refl)). apply IH.
    intros z Hz. apply Hpre. now right.
Qed.

Lemma find_none_iff {A} (f : A -> bool) (l : list A) :
  find f l = None <-> (forall x, In x l -> f x = false).
Proof.
  split; [apply find_none|].
  induction l as [|y l IH]; intros H; simpl; [reflexivity|].
  rewrite (H y (or_introl eq_refl)). apply IH.
  intros z Hz. apply H. now right.
Qed.

Section Resolver.

Context {R Request TrackerPeer Proxy : Type}.
Implicit Types (w : @world Request TrackerPeer Proxy) (me : @trackerScraper R).

(** [getIp] after a lookup that succeeded with some candidates. *)
Lemma getIp_candidates w me (ips : list IP) :
  net_LookupIP w (url.Hostname (u me)) = (ips, None) ->
  ips <> [] ->
  getIp w me =
  match find (acceptable (ipIsBlocked w) (url.Scheme (u me))) ips with
  | Some ip => (ip, None)
  | None => (last ips [], Some (errors_New "no acceptable ips"))
  end.
Proof.
  intros L Hne. unfold getIp. rewrite L.
  destruct ips as [|ip ips]; [contradiction|].
  cbn [List.length Nat.eqb]. apply getIp_range_find.
Qed.

(** C6. When the lookup of the host name gives a non-empty list of
    candidates, [getIp] returns, without error, the first candidate that
    the blocklist does not reject and whose family matches the scheme:
    every candidate before it is rejected or of the wrong family.  In
    particular, for the candidates blocked IPv4, allowed IPv4, allowed
    IPv6 under the scheme "udp4" it returns the allowed IPv4 address. *)
Theorem getIp_first_acceptable w me (ips : list IP) :
  net_LookupIP w (url.Hostname (u me)) = (ips, None) ->
  ips <> [] ->
  (forall pre ip post,
      ips = (pre ++ ip :: post)%list ->
      (forall x, In x pre ->
                 acceptable (ipIsBlocked w) (url.Scheme (u me)) x = false) ->
      acceptable (ipIsBlocked w) (url.Scheme (u me)) ip = true ->
      getIp w me = (ip, None))
  /\ (forall b4 a4 a6,
         ips = [b4; a4; a6] ->
         url.Scheme (u me) = "udp4" ->
         ipIsBlocked w b4 = true ->
         ipIsBlocked w a4 = false ->
         To4 a4 <> None ->
         getIp w me = (a4, None)).
Proof.
  intros L Hne. rewrite (getIp_candidates w me ips L Hne). split.
  - intros pre ip post -> Hpre Hip. now rewrite (find_first _ pre post ip Hpre Hip).
  - intros b4 a4 a6 -> Hs Hb Ha H4. rewrite Hs.
    unfold find, acceptable, family_matches. rewrite Hb, Ha. simpl.
    destruct (To4 a4); [reflexivity | contradiction].
Qed.

(** C7. [getIp] fails with a resolution failure exactly when the lookup
    itself failed or gave no candidate, and with the no-acceptable-address
    error exactly when the lookup gave candidates and each of them is
    rejected by the blocklist or by the family filter.  [kind_of] reads the
    kind off the returned error, so the two are told apart by the value
    returned; it returns without error in the remaining case only. *)
Theorem getIp_failure_kinds w me :
  let ips := fst (net_LookupIP w (url.Hostname (u me))) in
  let lerr := snd (net_LookupIP w (url.Hostname (u me))) in
  let ok := acceptable (ipIsBlocked w) (url.Scheme (u me)) in
  (kind_of (snd (getIp w me)) = Some ResolutionFailure
   <-> lerr <> None \/ ips = [])
  /\ (kind_of (snd (getIp w me)) = Some NoAcceptableAddress
      <-> lerr = None /\ ips <> [] /\ forall x, In x ips -> ok x = false)
  /\ (snd (getIp w me) = None
      <-> lerr = None /\ exists x, In x ips /\ ok x = true).
Proof.
  cbv zeta.
  destruct (net_LookupIP w (url.Hostname (u me))) as [ips lerr] eqn:L.
  cbn [fst snd]. destruct lerr as [e|].
  - unfold getIp. rewrite L. cbn [snd kind_of].
    split; [|split]; split; intros H.
    + left. discriminate.
    + reflexivity.
    + discriminate H.
    + destruct H as [H _]. discriminate H.
    + discriminate H.
    + destruct H as [H _]. discriminate H.
  - destruct ips as [|ip ips].
    + unfold getIp. rewrite L. cbn.
      split; [|split]; split; intros H.
      * now right.
      * reflexivity.
      * discriminate H.
      * destruct H as (_ & H & _). now contradiction H.
      * discriminate H.
      * destruct H as (_ & x & [] & _).
    + assert (Hne : ip :: ips <> []) by discriminate.
      rewrite (getIp_candidates w me _ L Hne).
      destruct (find _ (ip :: ips)) as [x|] eqn:F; cbn [snd kind_of String.eqb].
      * apply find_some in F. destruct F as [Hin Hx].
        split; [|split]; split; intros H.
        -- discriminate H.
        -- destruct H as [H|H]; [now contradiction H | discriminate H].
        -- discriminate H.
        -- destruct H as (_ & _ & H). rewrite (H x Hin) in Hx. discriminate Hx.
        -- split; [reflexivity|]. now exists x.
        -- reflexivity.
      * pose proof (proj1 (find_none_iff _ _) F) as Hall. cbn.
        split; [|split]; split; intros H.
        -- discriminate H.
        -- destruct H as [H|H]; [now contradiction H | discriminate H].
        -- repeat split; [discriminate | exact Hall].
        -- reflexivity.
        -- discriminate H.
        -- destruct H as (_ & x & Hin & Hx). rewrite (Hall x Hin) in Hx. discriminate Hx.
Qed.

End Resolver.

(** ** The endpoint string and one announce attempt *)

Section Announcer.

Context {R Request TrackerPeer Peers Proxy : Type}.
Variable URL_String : url.URL R -> string.
Variable IP_String : IP -> string.
Variable AppendFromTracker : list TrackerPeer -> Peers.

Implicit Types (w : @world Request TrackerPeer Proxy) (me : @trackerScraper R).

(** C5, as the code has it.  When the URL carries an explicit port, the
    endpoint string is the URL with its host replaced by the resolved
    address joined to that port: the port read back from it is the URL's
    port, the host name read back is the text of the address, and the
    scheme and the other parts are the URL's.  When the URL carries no
    explicit port, the endpoint string is the URL's own string. *)
Theorem trackerUrl_explicit_port me (ip : IP) :
  (url.Port (u me) <> "" ->
   trackerUrl URL_String IP_String me ip = URL_String (trackerUrl_u IP_String me ip)
   /\ url.Host (trackerUrl_u IP_String me ip)
      = JoinHostPort (IP_String ip) (url.Port (u me))
   /\ url.Port (trackerUrl_u IP_String me ip) = url.Port (u me)
   /\ (bracketed (IP_String ip) = false ->
       url.Hostname (trackerUrl_u IP_String me ip) = IP_String ip)
   /\ url.Scheme (trackerUrl_u IP_String me ip) = url.Scheme (u me)
   /\ url.Rest (trackerUrl_u IP_String me ip) = url.Rest (u me))
  /\ (url.Port (u me) = "" ->
      trackerUrl URL_String IP_String me ip = URL_String (u me)).
Proof.
  unfold trackerUrl, trackerUrl_u. split.
  - intros Hp. apply String.eqb_neq in Hp. rewrite Hp. cbn [negb].
    pose proof (splitHostPort_digits (url.Host (u me))) as Hd.
    fold (url.Port (u me)) in Hd.
    repeat split.
    + unfold url.Port at 1. cbn [url.Host url.set_Host].
      now apply splitHostPort_Join_port.
    + intros Hb. unfold url.Hostname. cbn [url.Host url.set_Host].
      now apply splitHostPort_Join_host.
  - intros Hp. rewrite Hp. reflexivity.
Qed.

(** The result of an attempt on each of its three paths. *)
Lemma announce_cases w me (event : tracker.AnnounceEvent) :
  let a := mkAnnounce (cfg_HTTPProxy w) (cfg_HTTPUserAgent w)
             (trackerUrl URL_String IP_String me (fst (getIp w me)))
             (announceRequest w event)
             (url.Host (u me)) (url.Hostname (u me)) (url.Scheme (u me))
             (cfg_PublicIp4 w) (cfg_PublicIp6 w) in
  fst (announce URL_String IP_String AppendFromTracker w me event) =
  match snd (getIp w me) with
  | Some err =>
      mkResult (Some (fmt_Errorf "error getting ip: " err)) 0 time.Minute (time_Now w)
  | None =>
      match snd (tracker_Do w a) with
      | Some err =>
          mkResult (Some (fmt_Errorf "error announcing: " (tracker_error err)))
            0 time.Minute (time_Now w)
      | None =>
          mkResult None
            (Z.of_nat (List.length (tracker.Peers (fst (tracker_Do w a)))))
            (int64_mul (tracker.Interval (fst (tracker_Do w a))) time.Second)
            (time_Now w)
      end
  end.
Proof.
  cbv zeta. unfold announce.
  destruct (getIp w me) as [ip [err|]]; cbn [fst snd]; [reflexivity|].
  destruct (tracker_Do w _) as [res [err|]]; reflexivity.
Qed.

(** A failed attempt keeps the interval of one minute it started with and
    counts no peer. *)
Lemma announce_Err w me (event : tracker.AnnounceEvent) :
  Err (fst (announce URL_String IP_String AppendFromTracker w me event))
    <> None ->
  Interval (fst (announce URL_String IP_String AppendFromTracker w me event))
    = time.Minute
  /\ NumPeers (fst (announce URL_String IP_String AppendFromTracker w me event)) = 0.
Proof.
  rewrite announce_cases. cbv zeta.
  destruct (snd (getIp w me)); [now split|].
  destruct (snd (tracker_Do w _)); [now split|].
  intros H. now contradiction H.
Qed.

(** The attempt failed exactly when the resolver or the exchange did. *)
Lemma announce_Err_iff w me (event : tracker.AnnounceEvent) :
  Err (fst (announce URL_String IP_String AppendFromTracker w me event))
    <> None
  <-> snd (getIp w me) <> None
      \/ snd (tracker_Do w
                (mkAnnounce (cfg_HTTPProxy w) (cfg_HTTPUserAgent w)
                   (trackerUrl URL_String IP_String me (fst (getIp w me)))
                   (announceRequest w event)
                   (url.Host (u me)) (url.Hostname (u me)) (url.Scheme (u me))
                   (cfg_PublicIp4 w) (cfg_PublicIp6 w))) <> None.
Proof.
  rewrite announce_cases. cbv zeta.
  destruct (snd (getIp w me)).
  - split; intros _; [left|]; discriminate.
  - destruct (snd (tracker_Do w _)).
    + split; intros _; [right|]; discriminate.
    + split; [intros H; now contradiction H | intros [H|H]; now contradiction H].
Qed.

(** Whatever the path, the result carries the clock reading. *)
Lemma announce_Completed w me (event : tracker.AnnounceEvent) :
  Completed (fst (announce URL_String IP_String AppendFromTracker w me event))
  = time_Now w.
Proof.
  rewrite announce_cases. cbv zeta.
  destruct (snd (getIp w me)); [reflexivity|].
  destruct (snd (tracker_Do w _)); reflexivity.
Qed.

(** C2. On every path of [announce] (the resolver failed, the tracker
    exchange failed, the exchange succeeded) the result returned has its
    [Completed] field set to the clock reading that the deferred function
    takes as the attempt returns, after the body has fixed the other
    fields; while the clock is not at the zero instant the field is not
    left zero. *)
Theorem announce_stamps_Completed w me (event : tracker.AnnounceEvent) :
  Completed (fst (announce URL_String IP_String AppendFromTracker w me event))
    = time_Now w
  /\ (time.IsZero (time_Now w) = false ->
      time.IsZero
        (Completed (fst (announce URL_String IP_String AppendFromTracker w me event)))
      = false).
Proof.
  assert (H : Completed (fst (announce URL_String IP_String AppendFromTracker w me event))
              = time_Now w).
  { rewrite announce_cases. cbv zeta.
    destruct (snd (getIp w me)); [reflexivity|].
    destruct (snd (tracker_Do w _)); reflexivity. }
  split; [exact H|]. intros Hz. rewrite H. exact Hz.
Qed.

End Announcer.

(** ** The announce loop *)

Section Loop.

Context {R Request TrackerPeer Peers Proxy : Type}.
Variable URL_String : url.URL R -> string.
Variable IP_String : IP -> string.
Variable AppendFromTracker : list TrackerPeer -> Peers.

Implicit Types (w : @world Request TrackerPeer Proxy) (me : @trackerScraper R).
Implicit Types (s : @state R Request Peers Proxy).

Lemma floor_interval_max (ar : trackerAnnounceResult) :
  floor_interval ar = Z.max (Interval ar) time.Minute.
Proof.
  unfold floor_interval.
  destruct (Z.ltb_spec (Interval ar) time.Minute); lia.
Qed.

(** The pass from the label [wait] to the blocking [select]. *)
Lemma step_AtWait s (asserted : bool) :
  at_ s = AtWait ->
  step URL_String IP_String AppendFromTracker s (InWantPeers asserted) =
  Some (mkState AtSelect (me s) (e s) (ar s)
          (if asserted then time.Minute else Z.max (Interval (ar s)) time.Minute)
          (negb asserted) (issued s) (effects s)).
Proof.
  intros H. unfold step. rewrite H, floor_interval_max.
  destruct asserted; cbn [negb]; [|reflexivity].
  destruct (Z.ltb_spec time.Minute (Z.max (Interval (ar s)) time.Minute)) as [L|L];
    [reflexivity|].
  do 2 f_equal. lia.
Qed.

(** An attempt of the loop and the pass to the [select] that follows it. *)
Lemma exec_announce_wait s w (asserted : bool) :
  at_ s = AtAnnounce ->
  exec URL_String IP_String AppendFromTracker s [InWorld w; InWantPeers asserted] =
  let out := announce URL_String IP_String AppendFromTracker w (me s) (e s) in
  Some (mkState AtSelect (mkScraper (u (me s)) (fst out)) tracker.None (fst out)
          (if asserted then time.Minute else Z.max (Interval (fst out)) time.Minute)
          (negb asserted) (issued s ++ [e s]) (effects s ++ snd out)).
Proof.
  intros H. cbn [exec]. unfold step at 1. rewrite H.
  destruct (announce URL_String IP_String AppendFromTracker w (me s) (e s))
    as [out effs].
  rewrite step_AtWait by reflexivity. reflexivity.
Qed.

(** C3. An attempt that fails, at the resolver or in the tracker exchange,
    returns a result with an error, an interval of exactly one minute and
    a peer count of 0; the loop stores that result in [lastAnnounce], and
    its next wait runs for exactly one minute from the completion of the
    attempt, whether or not more peers are wanted. *)
Theorem failed_attempt_waits_a_minute s w (asserted : bool) :
  let a := mkAnnounce (cfg_HTTPProxy w) (cfg_HTTPUserAgent w)
             (trackerUrl URL_String IP_String (me s) (fst (getIp w (me s))))
             (announceRequest w (e s))
             (url.Host (u (me s))) (url.Hostname (u (me s)))
             (url.Scheme (u (me s)))
             (cfg_PublicIp4 w) (cfg_PublicIp6 w) in
  at_ s = AtAnnounce ->
  snd (getIp w (me s)) <> None
  \/ snd (tracker_Do w a) <> None ->
  exists s',
    exec URL_String IP_String AppendFromTracker s [InWorld w; InWantPeers asserted]
      = Some s'
    /\ at_ s' = AtSelect
    /\ lastAnnounce (me s')
       = fst (announce URL_String IP_String AppendFromTracker w (me s) (e s))
    /\ ar s' = lastAnnounce (me s')
    /\ Err (lastAnnounce (me s')) <> None
    /\ Interval (lastAnnounce (me s')) = time.Minute
    /\ NumPeers (lastAnnounce (me s')) = 0
    /\ interval s' = time.Minute
    /\ forall now,
         timer now (ar s') (interval s')
         = time.Until now (time.Add (time_Now w) time.Minute).
Proof.
  intros a H F. subst a.
  apply (proj2 (announce_Err_iff URL_String IP_String AppendFromTracker
                  w (me s) (e s))) in F.
  rewrite (exec_announce_wait s w asserted H). cbv zeta.
  destruct (announce_Err _ _ _ _ _ _ F) as [Hi Hn].
  pose proof (announce_Completed URL_String IP_String
                AppendFromTracker w (me s) (e s)) as Hc.
  eexists. split; [reflexivity|]. cbn [at_ me lastAnnounce ar interval].
  rewrite Hi. repeat split; try assumption.
  - destruct asserted; reflexivity.
  - intros now. unfold timer. rewrite Hc. destruct asserted; reflexivity.
Qed.

(** C4. After every attempt the loop computes its wait as the larger of the
    interval of the outcome and one minute (lines 156 to 159); that is the
    wait it keeps when no more peers are wanted, and the want-peers check
    that follows can only bring it down to one minute.  So for an outcome
    whose interval is below one minute the next wait is exactly one
    minute from the completion of the attempt. *)
Theorem wait_is_max_of_interval_and_minute s w (asserted : bool) :
  at_ s = AtAnnounce ->
  let out := fst (announce URL_String IP_String AppendFromTracker w (me s) (e s)) in
  floor_interval out = Z.max (Interval out) time.Minute
  /\ exists s',
      exec URL_String IP_String AppendFromTracker s [InWorld w; InWantPeers asserted]
        = Some s'
      /\ at_ s' = AtSelect
      /\ ar s' = out
      /\ (asserted = false -> interval s' = Z.max (Interval out) time.Minute)
      /\ (asserted = true ->
          interval s' = Z.min time.Minute (Z.max (Interval out) time.Minute))
      /\ (Interval out < time.Minute ->
          interval s' = time.Minute
          /\ forall now,
               timer now (ar s') (interval s')
               = time.Until now (time.Add (Completed out) time.Minute)).
Proof.
  intros H out. split; [apply floor_interval_max|].
  rewrite (exec_announce_wait s w asserted H). cbv zeta. fold out.
  eexists. split; [reflexivity|]. cbn [at_ ar interval].
  repeat split.
  - intros ->. reflexivity.
  - intros ->. lia.
  - destruct asserted; [reflexivity | lia].
  - intros now. unfold timer. destruct asserted; [reflexivity|].
    f_equal. f_equal. lia.
Qed.

(** C8. When the want-peers signal is found asserted at the label [wait],
    the wait is capped to one minute, counted from the completion of the
    last attempt, and the loop stops listening to the signal: from that
    [select] the signal lets nothing proceed, and the only ways on are the
    torrent being closed and the timer, so the loop does not come back to
    [wait] before its next attempt.  When the signal was not asserted at
    [wait] and fires during the blocking [select], the loop goes back to
    [wait] with the same outcome and issues no attempt. *)
Theorem want_peers_caps_then_is_ignored s :
  (at_ s = AtWait ->
   exists s',
     step URL_String IP_String AppendFromTracker s (InWantPeers true) = Some s'
     /\ at_ s' = AtSelect
     /\ interval s' = time.Minute
     /\ (forall now,
           timer now (ar s') (interval s')
           = time.Until now (time.Add (Completed (ar s)) time.Minute))
     /\ wantPeers s' = false
     /\ step URL_String IP_String AppendFromTracker s' (InSelect ReadyWantPeers)
        = None
     /\ (forall i s'',
           step URL_String IP_String AppendFromTracker s' i = Some s'' ->
           (i = InSelect ReadyClosed /\ at_ s'' = AtDeferred)
           \/ (i = InSelect ReadyTimer /\ at_ s'' = AtAnnounce)))
  /\ (at_ s = AtSelect -> wantPeers s = true ->
      exists s',
        step URL_String IP_String AppendFromTracker s (InSelect ReadyWantPeers)
          = Some s'
        /\ at_ s' = AtWait
        /\ ar s' = ar s
        /\ me s' = me s
        /\ issued s' = issued s
        /\ effects s' = effects s).
Proof.
  split.
  - intros H. rewrite (step_AtWait s true H). eexists. split; [reflexivity|].
    cbn [at_ interval ar wantPeers]. repeat split.
    intros i s'' Hs. unfold step in Hs. cbn [at_ wantPeers] in Hs.
    destruct i as [w|a|[| |]]; try discriminate Hs.
    + left. inversion Hs. now split.
    + right. inversion Hs. now split.
  - intros H Hw. unfold step. rewrite H, Hw. eexists. split; [reflexivity|].
    cbn. repeat split.
Qed.

End Loop.

(** ** The order of announce events *)

Section Events.

Context {R Request TrackerPeer Peers Proxy : Type}.
Variable URL_String : url.URL R -> string.
Variable IP_String : IP -> string.
Variable AppendFromTracker : list TrackerPeer -> Peers.

Implicit Types (s : @state R Request Peers Proxy).

Lemma step_events_ok s (i : @input Request TrackerPeer Proxy) s' :
  events_ok s ->
  step URL_String IP_String AppendFromTracker s i = Some s' ->
  events_ok s'.
Proof.
  unfold events_ok, step. intros Inv Hs.
  destruct (at_ s) eqn:P; destruct i as [w|a|[| |]]; try discriminate Hs.
  - (* an attempt of the loop *)
    destruct (announce _ _ _ w (me s) (e s)) as [out effs].
    inversion Hs; subst s'; clear Hs. cbn [at_ issued e].
    destruct Inv as [[Hi He]|[k [Hi He]]]; rewrite Hi, He.
    + exists O. now split.
    + exists (S k). split; [|reflexivity].
      cbn [app repeat]. rewrite repeat_cons. reflexivity.
  - destruct a; inversion Hs; subst s'; exact Inv.
  - inversion Hs; subst s'; exact Inv.
  - destruct (wantPeers s); [|discriminate Hs].
    inversion Hs; subst s'; exact Inv.
  - inversion Hs; subst s'. cbn [at_ issued e]. right. exact Inv.
  - (* the deferred attempt *)
    destruct (announce _ _ _ w (me s) tracker.Stopped) as [out effs].
    inversion Hs; subst s'; clear Hs. cbn [at_ issued].
    destruct Inv as [k [Hi _]]. exists k. rewrite Hi. reflexivity.
Qed.

Lemma exec_events_ok (ins : list (@input Request TrackerPeer Proxy)) :
  forall s s',
    events_ok s ->
    exec URL_String IP_String AppendFromTracker s ins = Some s' ->
    events_ok s'.
Proof.
  induction ins as [|i ins IH]; intros s s' Inv Hx; cbn [exec] in Hx.
  - inversion Hx; subst; exact Inv.
  - destruct (step URL_String IP_String AppendFromTracker s i) as [s1|] eqn:S1;
      [|discriminate Hx].
    exact (IH s1 s' (step_events_ok s i s1 Inv S1) Hx).
Qed.

(** A loop that has not returned can always go on: some input lets it
    take a step. *)
Lemma step_progress s (w : @world Request TrackerPeer Proxy) :
  at_ s <> Returned ->
  exists i s', step URL_String IP_String AppendFromTracker s i = Some s'.
Proof.
  intros H. unfold step. destruct (at_ s) eqn:P.
  - exists (InWorld w). destruct (announce _ _ _ w (me s) (e s)). eauto.
  - exists (InWantPeers false). eauto.
  - exists (InSelect ReadyClosed). eauto.
  - exists (InWorld w). destruct (announce _ _ _ w (me s) tracker.Stopped). eauto.
  - now contradiction H.
Qed.

(** C1. The first attempt of a loop started afresh uses [Started].
    Whatever the outside then supplies, the events of the attempts issued
    so far are: none yet; or [Started] first and then [None] only, while
    the loop has not returned; or that same list closed by a single
    [Stopped], exactly when the loop has returned.  When the torrent is
    closed while the loop waits, the one attempt with [Stopped] is issued
    and the loop returns; once it has returned it takes no further step,
    so nothing follows [Stopped]. *)
Theorem Run_event_order (ts : @trackerScraper R) :
  (forall w, exists s,
      Run URL_String IP_String AppendFromTracker ts [InWorld w] = Some s
      /\ issued s = [tracker.Started])
  /\ (forall (ins : list (@input Request TrackerPeer Proxy)) s,
        Run URL_String IP_String AppendFromTracker ts ins = Some s ->
        ((issued s = [] /\ at_ s = AtAnnounce)
         \/ (exists k, issued s = tracker.Started :: repeat tracker.None k
                       /\ at_ s <> Returned)
         \/ (exists k, issued s
                       = (tracker.Started :: repeat tracker.None k
                            ++ [tracker.Stopped])%list
                       /\ at_ s = Returned))
        /\ (at_ s = AtSelect ->
            forall w, exists s',
              exec URL_String IP_String AppendFromTracker s
                [InSelect ReadyClosed; InWorld w] = Some s'
              /\ at_ s' = Returned
              /\ issued s' = (issued s ++ [tracker.Stopped])%list)
        /\ (at_ s = Returned ->
            forall i, step URL_String IP_String AppendFromTracker s i
                      = None)).
Proof.
  split.
  - intros w. unfold Run, Run_start. cbn [exec]. unfold step. cbn [at_ me e].
    destruct (announce _ _ _ w ts tracker.Started) as [out effs].
    eexists. split; reflexivity.
  - intros ins s Hr. unfold Run in Hr.
    assert (Inv : events_ok s).
    { apply (exec_events_ok ins (Run_start ts) s); [|exact Hr].
      left. now split. }
    unfold events_ok in Inv. split; [|split].
    + destruct (at_ s) eqn:P.
      * destruct Inv as [[Hi _]|[k [Hi _]]].
        -- left. now split.
        -- right. left. exists k. split; [exact Hi | discriminate].
      * destruct Inv as [k [Hi _]]. right. left. exists k.
        split; [exact Hi | discriminate].
      * destruct Inv as [k [Hi _]]. right. left. exists k.
        split; [exact Hi | discriminate].
      * destruct Inv as [k [Hi _]]. right. left. exists k.
        split; [exact Hi | discriminate].
      * destruct Inv as [k Hi]. right. right. exists k. now split.
    + intros P w. cbn [exec]. unfold step at 1. rewrite P.
      unfold step. cbn [at_ me issued].
      destruct (announce _ _ _ w (me s) tracker.Stopped) as [out effs].
      eexists. repeat split.
    + intros P i. unfold step. rewrite P. now destruct i.
Qed.

End Events.

(** ** The status line *)

Lemma wrap64_id (z : Z) : in_int64 z -> wrap64 z = z.
Proof.
  unfold in_int64, wrap64. intros H. rewrite Z.mod_small; lia.
Qed.

Lemma int64_mul_seconds (i : Z) :
  in_int32 i -> int64_mul i time.Second = i * time.Second.
Proof.
  unfold in_int32, int64_mul, time.Second. intros H.
  apply wrap64_id. unfold in_int64. lia.
Qed.

(** Case analysis on the comparisons of a saturated subtraction. *)
Ltac saturate :=
  unfold time.Sub, in_int64, time.minDuration, time.maxDuration;
  repeat match goal with
         | |- context [Z.ltb ?a ?b] => destruct (Z.ltb_spec a b)
         end;
  lia.

Lemma Sub_range (t v : time.Time) : in_int64 (time.Sub t v).
Proof. saturate. Qed.

Lemma Sub_nonpos (t v : time.Time) : t <= v -> time.Sub t v <= 0.
Proof. intros H. saturate. Qed.

Lemma Sub_pos (t v : time.Time) : v < t -> 0 < time.Sub t v.
Proof. intros H. saturate. Qed.

(** Lines 41 and 42 cut a positive duration down to its whole seconds. *)
Lemma truncate_to_seconds (na : time.Duration) :
  0 < na -> in_int64 na ->
  int64_mul (int64_quo na time.Second) time.Second
  = whole_seconds na * time.Second
  /\ 0 <= na - whole_seconds na * time.Second < time.Second.
Proof.
  unfold int64_mul, int64_quo, whole_seconds, in_int64, time.Second.
  intros Hp Hr.
  rewrite Z.quot_div_nonneg by lia.
  pose proof (Z.div_mod na 1000000000 ltac:(lia)) as Hd.
  pose proof (Z.mod_pos_bound na 1000000000 ltac:(lia)) as Hm.
  assert (0 <= na / 1000000000) by (apply Z.div_pos; lia).
  rewrite (wrap64_id (na / 1000000000)) by (unfold in_int64; lia).
  rewrite wrap64_id by (unfold in_int64; lia).
  lia.
Qed.

Lemma all_bytes_append (f : ascii -> bool) (a b : string) :
  strings.all_bytes f (a ++ b) = strings.all_bytes f a && strings.all_bytes f b.
Proof.
  induction a as [|x a IH]; simpl; [reflexivity|].
  now rewrite IH, andb_assoc.
Qed.

Lemma one_line_uint (d : Decimal.uint) :
  one_line (DecimalString.NilEmpty.string_of_uint d) = true.
Proof. induction d; cbn; [reflexivity | exact IHd ..]. Qed.

(** The decimal text of an integer holds no line feed. *)
Lemma one_line_int (i : Decimal.int) :
  one_line (DecimalString.NilZero.string_of_int i) = true.
Proof.
  destruct i as [d|d]; cbn;
    (destruct d; [reflexivity | apply (one_line_uint (_ _)) ..]).
Qed.

Section Status.

Context {R : Type}.
Variable URL_String : url.URL R -> string.
Variable strconv_Quote : string -> string.
Variable Duration_String : time.Duration -> string.

Implicit Types (ts : @trackerScraper R).

(** C9, as the code has it.  The status line is the quoted URL of the
    endpoint, a tab, a time field, a tab and a summary, and nothing else.
    The time field is the token "anytime" when the next contact (the
    completion of the last attempt plus its interval) is not in the
    future, which is the case when no attempt has been stored yet;
    otherwise it is the time left until then, cut down to whole seconds.
    The summary is the text of the error when the last attempt failed, the
    token "never" when no attempt has completed, and the peer count
    followed by " peers" otherwise.  The text of the error is printed as
    it is: the quoted URL and the time field holding no line feed, the
    status line is a single line exactly when the error text of a failed
    last attempt holds none. *)
Theorem statusLine_format (now : time.Time) ts :
  let la := lastAnnounce ts in
  let remaining := time.Until now (time.Add (Completed la) (Interval la)) in
  exists time_field summary : string,
    statusLine URL_String strconv_Quote Duration_String now ts
    = strconv_Quote (URL_String (u ts)) ++ TAB ++ time_field ++ TAB ++ summary
    /\ (one_line (strconv_Quote (URL_String (u ts))) = true ->
        one_line time_field = true ->
        (one_line (statusLine URL_String strconv_Quote Duration_String now ts) = true
         <-> (forall err, Err la = Some err -> one_line (Error err) = true)))
    /\ (remaining <= 0 -> time_field = "anytime")
    /\ (la = zeroResult -> 0 < now -> time_field = "anytime" /\ summary = "never")
    /\ (0 < remaining ->
        time_field = Duration_String (whole_seconds remaining * time.Second)
        /\ 0 <= remaining - whole_seconds remaining * time.Second < time.Second)
    /\ (forall err, Err la = Some err -> summary = Error err)
    /\ (Err la = None -> time.IsZero (Completed la) = true ->
        summary = "never")
    /\ (Err la = None -> time.IsZero (Completed la) = false ->
        summary
        = DecimalString.NilZero.string_of_int (Z.to_int (NumPeers la)) ++ " peers").
Proof.
  cbv zeta. unfold statusLine.
  set (la := lastAnnounce ts).
  set (remaining := time.Until now (time.Add (Completed la) (Interval la))).
  eexists. eexists. split; [reflexivity|].
  split; [|split; [|split; [|split; [|split; [|split]]]]].
  - intros Hq Ht. unfold one_line in *.
    rewrite !all_bytes_append, Hq, Ht. cbn [andb strings.all_bytes TAB].
    change (negb (Ascii.eqb (ascii_of_nat 9) (ascii_of_nat 10))) with true.
    cbn [andb].
    destruct (Err la) as [err|].
    + split.
      * intros H e0 E. inversion E; subst e0. exact H.
      * intros H. exact (H err eq_refl).
    + split; [intros _ e0 E; discriminate E|]. intros _.
      destruct (time.IsZero (Completed la)); [reflexivity|].
      unfold Sprintf_peers. rewrite all_bytes_append.
      fold (one_line (DecimalString.NilZero.string_of_int (Z.to_int (NumPeers la)))).
      rewrite one_line_int. reflexivity.
  - intros Hle. destruct (Z.ltb_spec 0 remaining); [lia | reflexivity].
  - intros Hz Hnow.
    assert (Hr : remaining <= 0).
    { unfold remaining. rewrite Hz. unfold time.Until. apply Sub_nonpos.
      unfold time.Add. cbn. lia. }
    split.
    + destruct (Z.ltb_spec 0 remaining); [lia | reflexivity].
    + rewrite Hz. reflexivity.
  - intros Hp. destruct (Z.ltb_spec 0 remaining); [|lia].
    destruct (truncate_to_seconds remaining Hp (Sub_range _ _)) as [E B].
    rewrite E. split; [reflexivity | exact B].
  - intros err E. rewrite E. reflexivity.
  - intros E Z0. rewrite E, Z0. reflexivity.
  - intros E Z0. rewrite E, Z0. reflexivity.
Qed.

End Status.

(** ** The stored interval and the wait *)

Section Stored.

Context {R Request TrackerPeer Peers Proxy : Type}.
Variable URL_String : url.URL R -> string.
Variable IP_String : IP -> string.
Variable strconv_Quote : string -> string.
Variable Duration_String : time.Duration -> string.
Variable AppendFromTracker : list TrackerPeer -> Peers.

Implicit Types (w : @world Request TrackerPeer Proxy).
Implicit Types (s : @state R Request Peers Proxy).

(** C10. After a successful attempt the interval stored in [lastAnnounce]
    is the interval of the tracker's response in seconds, as a duration,
    with no floor of one minute put on it; the floor is in the wait of the
    loop only.  So when the tracker reports less than a minute, there are
    instants (from the completion plus the stored interval up to the
    completion plus one minute) at which the status line shows "anytime"
    while the timer of the loop has not run out. *)
Theorem stored_interval_is_not_floored s w (asserted : bool) :
  let a := mkAnnounce (cfg_HTTPProxy w) (cfg_HTTPUserAgent w)
             (trackerUrl URL_String IP_String (me s) (fst (getIp w (me s))))
             (announceRequest w (e s))
             (url.Host (u (me s))) (url.Hostname (u (me s)))
             (url.Scheme (u (me s)))
             (cfg_PublicIp4 w) (cfg_PublicIp6 w) in
  let secs := tracker.Interval (fst (tracker_Do w a)) in
  at_ s = AtAnnounce ->
  snd (getIp w (me s)) = None ->
  snd (tracker_Do w a) = None ->
  in_int32 secs ->
  exists s',
    exec URL_String IP_String AppendFromTracker s [InWorld w; InWantPeers asserted]
      = Some s'
    /\ at_ s' = AtSelect
    /\ Completed (lastAnnounce (me s')) = time_Now w
    /\ Interval (lastAnnounce (me s')) = secs * time.Second
    /\ (secs < 60 ->
        interval s' = time.Minute
        /\ forall now,
             time_Now w + secs * time.Second <= now < time_Now w + time.Minute ->
             0 < timer now (ar s') (interval s')
             /\ exists summary,
                 statusLine URL_String strconv_Quote Duration_String now (me s')
                 = strconv_Quote (URL_String (u (me s')))
                   ++ TAB ++ "anytime" ++ TAB ++ summary).
Proof.
  intros a secs H Hip Hdo Hsecs.
  rewrite (exec_announce_wait URL_String IP_String AppendFromTracker s w asserted H).
  cbv zeta.
  pose proof (announce_cases URL_String IP_String AppendFromTracker w (me s) (e s))
    as Hc.
  cbv zeta in Hc. fold a in Hc. rewrite Hip, Hdo in Hc. fold secs in Hc.
  rewrite (int64_mul_seconds secs Hsecs) in Hc.
  eexists. split; [reflexivity|].
  cbn [at_ me lastAnnounce ar interval u]. rewrite Hc.
  cbn [Completed Interval].
  split; [reflexivity|]. split; [reflexivity|]. split; [reflexivity|].
  intros Hlt.
  assert (Hm : secs * time.Second < time.Minute)
    by (unfold time.Minute, time.Second; lia).
  split.
  - destruct asserted; [reflexivity | lia].
  - intros now [Hlo Hhi]. split.
    + unfold timer, time.Until, time.Add. cbn [Completed].
      apply Sub_pos.
      destruct asserted; [lia|]. lia.
    + unfold statusLine. cbn [lastAnnounce Completed Interval Err u].
      assert (Hr : time.Until now (time.Add (time_Now w) (secs * time.Second)) <= 0).
      { unfold time.Until, time.Add. apply Sub_nonpos. lia. }
      destruct (Z.ltb_spec 0
                  (time.Until now (time.Add (time_Now w) (secs * time.Second))));
        [lia|].
      eexists. reflexivity.
Qed.

End Stored.

(** ** The properties on the small session *)

Lemma Run_event_order_witness :
  exists s,
    Example.Run Example.udp4_scraper Example.script = Some s
    /\ issued s = [tracker.Started; tracker.None; tracker.Stopped]
    /\ ((issued s = [] /\ at_ s = AtAnnounce)
        \/ (exists k, issued s = tracker.Started :: repeat tracker.None k
                      /\ at_ s <> Returned)
        \/ (exists k, issued s
                      = (tracker.Started :: repeat tracker.None k
                           ++ [tracker.Stopped])%list
                      /\ at_ s = Returned)).
Proof.
  eexists. split; [vm_compute; reflexivity|]. split; [reflexivity|].
  apply (proj2 (Run_event_order Example.URL_String Example.IP_String
                  (fun ps => ps) Example.udp4_scraper) Example.script).
  vm_compute. reflexivity.
Defined.

Lemma announce_stamps_Completed_witness :
  time.IsZero
    (Completed (fst (Example.announce (Example.unresolved Example.t0)
                       Example.udp4_scraper tracker.Started))) = false
  /\ time.IsZero
       (Completed (fst (Example.announce (Example.failing Example.t0)
                          Example.udp4_scraper tracker.None))) = false
  /\ time.IsZero
       (Completed (fst (Example.announce (Example.answering 1800 7 Example.t0)
                          Example.udp4_scraper tracker.None))) = false.
Proof.
  split; [|split];
    apply (proj2 (announce_stamps_Completed Example.URL_String Example.IP_String
                    (fun ps => ps) _ _ _));
    reflexivity.
Defined.

Lemma failed_attempt_waits_a_minute_witness :
  exists s',
    exec Example.URL_String Example.IP_String (fun ps => ps) Example.fresh
      [InWorld (Example.failing Example.t0); InWantPeers false] = Some s'
    /\ Interval (lastAnnounce (me s')) = time.Minute
    /\ NumPeers (lastAnnounce (me s')) = 0
    /\ interval s' = time.Minute.
Proof.
  destruct (failed_attempt_waits_a_minute Example.URL_String Example.IP_String
              (fun ps => ps) Example.fresh (Example.failing Example.t0) false)
    as (s' & Hx & _ & _ & _ & _ & Hi & Hn & Hw & _).
  - reflexivity.
  - right. vm_compute. discriminate.
  - exists s'. repeat split; assumption.
Defined.

Lemma wait_is_max_of_interval_and_minute_witness :
  exists s',
    exec Example.URL_String Example.IP_String (fun ps => ps) Example.fresh
      [InWorld (Example.answering 20 3 Example.t0); InWantPeers false] = Some s'
    /\ Interval (ar s') = 20 * time.Second
    /\ interval s' = time.Minute.
Proof.
  destruct (wait_is_max_of_interval_and_minute Example.URL_String
              Example.IP_String (fun ps => ps) Example.fresh
              (Example.answering 20 3 Example.t0) false eq_refl)
    as (_ & s' & Hx & _ & Ha & _ & _ & Hlt).
  exists s'. split; [exact Hx|]. split.
  - rewrite Ha. reflexivity.
  - apply Hlt. vm_compute. reflexivity.
Defined.

Lemma trackerUrl_explicit_port_witness :
  trackerUrl Example.URL_String Example.IP_String Example.udp4_scraper
    Example.allowed_v4
  = Example.URL_String
      (trackerUrl_u Example.IP_String Example.udp4_scraper Example.allowed_v4)
  /\ url.Port (trackerUrl_u Example.IP_String Example.udp4_scraper Example.allowed_v4)
     = "6969"
  /\ url.Hostname
       (trackerUrl_u Example.IP_String Example.udp4_scraper Example.allowed_v4)
     = "93.184.216.34".
Proof.
  destruct (proj1 (trackerUrl_explicit_port Example.URL_String Example.IP_String
                     Example.udp4_scraper Example.allowed_v4))
    as (Hs & _ & Hp & Hh & _).
  - vm_compute. discriminate.
  - split; [exact Hs|]. split.
    + rewrite Hp. reflexivity.
    + rewrite Hh; reflexivity.
Defined.

(** C5 as written does not hold: for a URL without an explicit port the
    endpoint string is the URL's own, with the host name still in it and
    the resolved address nowhere. *)
Lemma trackerUrl_without_port_keeps_host_name :
  url.Port (u Example.http_scraper) = ""
  /\ Example.IP_String Example.allowed_v4 = "93.184.216.34"
  /\ trackerUrl Example.URL_String Example.IP_String Example.http_scraper
       Example.allowed_v4
     = "http://tracker.example.com/announce"
  /\ url.Hostname
       (trackerUrl_u Example.IP_String Example.http_scraper Example.allowed_v4)
     <> Example.IP_String Example.allowed_v4.
Proof.
  repeat split; try reflexivity. vm_compute. discriminate.
Qed.

Lemma getIp_first_acceptable_witness :
  getIp (Example.answering 1800 7 Example.t0) Example.udp4_scraper
  = (Example.allowed_v4, None).
Proof.
  apply (proj2 (getIp_first_acceptable (Example.answering 1800 7 Example.t0)
                  Example.udp4_scraper
                  [Example.blocked_v4; Example.allowed_v4; Example.allowed_v6]
                  eq_refl ltac:(discriminate))
           Example.blocked_v4 Example.allowed_v4 Example.allowed_v6);
    try reflexivity.
  vm_compute. discriminate.
Defined.

Lemma getIp_failure_kinds_witness :
  kind_of (snd (getIp (Example.unresolved Example.t0) Example.udp4_scraper))
  = Some ResolutionFailure
  /\ kind_of (snd (getIp (Example.all_blocked Example.t0) Example.udp4_scraper))
     = Some NoAcceptableAddress.
Proof.
  split.
  - apply (proj1 (getIp_failure_kinds (Example.unresolved Example.t0)
                    Example.udp4_scraper)).
    left. vm_compute. discriminate.
  - apply (proj1 (proj2 (getIp_failure_kinds (Example.all_blocked Example.t0)
                           Example.udp4_scraper))).
    split; [reflexivity|]. split; [vm_compute; discriminate|].
    intros x [<-|[<-|[]]]; reflexivity.
Defined.

Lemma want_peers_caps_then_is_ignored_witness :
  exists s1 s2,
    exec Example.URL_String Example.IP_String (fun ps => ps) Example.fresh
      [InWorld (Example.answering 1800 7 Example.t0)] = Some s1
    /\ Example.step s1 (InWantPeers true) = Some s2
    /\ Interval (ar s1) = 30 * time.Minute
    /\ interval s2 = time.Minute
    /\ wantPeers s2 = false
    /\ Example.step s2 (InSelect ReadyWantPeers) = None.
Proof.
  eexists. 
  destruct (proj1 (want_peers_caps_then_is_ignored Example.URL_String
                     Example.IP_String (fun ps => ps)
                     (mkState AtWait
                        (mkScraper (u Example.udp4_scraper)
                           (mkResult None 7 (1800 * time.Second) Example.t0))
                        tracker.None
                        (mkResult None 7 (1800 * time.Second) Example.t0)
                        0 false [tracker.Started]
                        (snd (Example.announce (Example.answering 1800 7 Example.t0)
                                Example.udp4_scraper tracker.Started))))
              eq_refl)
    as (s2 & Hs & _ & Hi & _ & Hw & Hn & _).
  exists s2. split; [vm_compute; reflexivity|].
  split; [exact Hs|]. split; [reflexivity|].
  split; [exact Hi|]. split; [exact Hw | exact Hn].
Defined.

Lemma statusLine_format_witness :
  exists time_field summary : string,
    Example.statusLine Example.t0 Example.after_success
    = Example.Quote "udp4://tracker.example.com:6969/announce"
      ++ TAB ++ time_field ++ TAB ++ summary
    /\ time_field = "30m0s"
    /\ summary = "7 peers"
    /\ one_line (Example.statusLine Example.t0 Example.after_success) = true.
Proof.
  destruct (statusLine_format Example.URL_String Example.Quote
              Example.Duration_String Example.t0 Example.after_success)
    as (tf & sm & Hl & Hone & _ & _ & Hpos & _ & _ & Hpeers).
  pose proof (proj1 (Hpos ltac:(vm_compute; reflexivity))) as Htf.
  exists tf, sm. split; [exact Hl|]. split; [|split].
  - rewrite Htf. reflexivity.
  - rewrite (Hpeers eq_refl eq_refl). reflexivity.
  - apply (Hone eq_refl).
    + rewrite Htf. reflexivity.
    + intros err E. discriminate E.
Defined.

(** C9 as written does not hold: an attempt that fails with an error text
    of two lines is stored with that text, and the status line that shows
    it has a line feed in it. *)
Lemma statusLine_error_text_breaks_the_line :
  exists s',
    Example.step Example.fresh (InWorld (Example.garbled Example.t0)) = Some s'
    /\ Err (lastAnnounce (me s'))
       = Some (errors_New
                 ("error announcing: response from tracker: 502 Bad Gateway: <html>"
                  ++ Example.LF ++ "</html>"))
    /\ one_line (Example.statusLine (Example.t0 + time.Second) (me s')) = false.
Proof.
  eexists. split; [vm_compute; reflexivity|]. split; reflexivity.
Qed.

Lemma stored_interval_is_not_floored_witness :
  exists s',
    exec Example.URL_String Example.IP_String (fun ps => ps) Example.fresh
      [InWorld (Example.answering 20 3 Example.t0); InWantPeers false] = Some s'
    /\ Interval (lastAnnounce (me s')) = 20 * time.Second
    /\ interval s' = time.Minute
    /\ 0 < timer (Example.t0 + 30 * time.Second) (ar s') (interval s')
    /\ exists summary,
        Example.statusLine (Example.t0 + 30 * time.Second) (me s')
        = Example.Quote (Example.URL_String (u (me s')))
          ++ TAB ++ "anytime" ++ TAB ++ summary.
Proof.
  destruct (stored_interval_is_not_floored Example.URL_String Example.IP_String
              Example.Quote Example.Duration_String (fun ps => ps)
              Example.fresh (Example.answering 20 3 Example.t0) false
              eq_refl eq_refl eq_refl)
    as (s' & Hx & _ & _ & Hi & Hlt).
  - vm_compute. split; [intros H; discriminate H | reflexivity].
  - destruct (Hlt ltac:(vm_compute; reflexivity)) as [Hw Hnow].
    destruct (Hnow (Example.t0 + 30 * time.Second)) as [Ht Hs].
    + vm_compute. split; [intros H; discriminate H | reflexivity].
    + exists s'. split; [exact Hx|]. split; [exact Hi|].
      split; [exact Hw|]. split; [exact Ht | exact Hs].
Defined.

(** * Further properties of the scraper *)

(** ** What a successful resolution gives, and what a failed one leaves *)

Section ResolverMore.

Context {R Request TrackerPeer Proxy : Type}.
Implicit Types (w : @world Request TrackerPeer Proxy) (me : @trackerScraper R).

(** A success of [getIp] comes from a lookup that succeeded and is a
    candidate that passes both filters. *)
Lemma getIp_accepts w me (ip : IP) :
  getIp w me = (ip, None) ->
  snd (net_LookupIP w (url.Hostname (u me))) = None
  /\ In ip (fst (net_LookupIP w (url.Hostname (u me))))
  /\ acceptable (ipIsBlocked w) (url.Scheme (u me)) ip = true.
Proof.
  intros H.
  destruct (net_LookupIP w (url.Hostname (u me))) as [ips lerr] eqn:L.
  destruct lerr as [e|].
  { unfold getIp in H. rewrite L in H. discriminate H. }
  destruct ips as [|c ips].
  { unfold getIp in H. rewrite L in H. discriminate H. }
  rewrite (getIp_candidates w me _ L ltac:(discriminate)) in H.
  destruct (find _ (c :: ips)) as [x|] eqn:F; [|discriminate H].
  inversion H; subst x; clear H.
  apply find_some in F. cbn [fst snd]. split; [reflexivity | exact F].
Qed.

(** The no-acceptable-address error comes from a lookup that succeeded
    with candidates none of which passes the filters. *)
Lemma getIp_rejects_all w me :
  kind_of (snd (getIp w me)) = Some NoAcceptableAddress ->
  exists ips,
    net_LookupIP w (url.Hostname (u me)) = (ips, None)
    /\ ips <> []
    /\ find (acceptable (ipIsBlocked w) (url.Scheme (u me))) ips = None.
Proof.
  intros K.
  destruct (net_LookupIP w (url.Hostname (u me))) as [ips lerr] eqn:L.
  destruct lerr as [e|].
  { unfold getIp in K. rewrite L in K. discriminate K. }
  destruct ips as [|c ips].
  { unfold getIp in K. rewrite L in K. discriminate K. }
  exists (c :: ips). split; [reflexivity|]. split; [discriminate|].
  rewrite (getIp_candidates w me _ L ltac:(discriminate)) in K.
  destruct (find _ (c :: ips)); [discriminate K | reflexivity].
Qed.

(** X1. An address that [getIp] returns without error is one of the
    candidates of the lookup, is not on the blocklist, and is of the family
    the scheme asks for: IPv4 under "udp4", not IPv4 under "udp6". *)
Theorem getIp_success_sound w me (ip : IP) :
  getIp w me = (ip, None) ->
  snd (net_LookupIP w (url.Hostname (u me))) = None
  /\ In ip (fst (net_LookupIP w (url.Hostname (u me))))
  /\ ipIsBlocked w ip = false
  /\ (url.Scheme (u me) = "udp4" -> To4 ip <> None)
  /\ (url.Scheme (u me) = "udp6" -> To4 ip = None).
Proof.
  intros H. destruct (getIp_accepts w me ip H) as (Hl & Hin & Hok).
  unfold acceptable in Hok. apply andb_prop in Hok. destruct Hok as [Hb Hf].
  split; [exact Hl|]. split; [exact Hin|].
  split; [now destruct (ipIsBlocked w ip)|].
  unfold family_matches in Hf. split; intros Hs; rewrite Hs in Hf; cbn in Hf.
  - now destruct (To4 ip).
  - now destruct (To4 ip).
Qed.

(** X2. The address beside an error is not to be used: it is the nil
    address when the lookup failed or gave nothing, and the last candidate
    the loop looked at, rejected like the others, when every candidate was
    filtered out. *)
Theorem getIp_failure_address w me :
  (snd (net_LookupIP w (url.Hostname (u me))) <> None
   \/ fst (net_LookupIP w (url.Hostname (u me))) = [] ->
   fst (getIp w me) = [])
  /\ (kind_of (snd (getIp w me)) = Some NoAcceptableAddress ->
      fst (getIp w me) = last (fst (net_LookupIP w (url.Hostname (u me)))) []
      /\ In (fst (getIp w me)) (fst (net_LookupIP w (url.Hostname (u me))))
      /\ acceptable (ipIsBlocked w) (url.Scheme (u me)) (fst (getIp w me)) = false).
Proof.
  destruct (net_LookupIP w (url.Hostname (u me))) as [ips lerr] eqn:L.
  cbn [fst snd]. split.
  - intros H. unfold getIp. rewrite L. destruct lerr; [reflexivity|].
    destruct H as [H|H]; [now contradiction H|]. subst ips. reflexivity.
  - intros K.
    destruct (getIp_rejects_all w me K) as (ips' & L' & Hne & F).
    rewrite L in L'. inversion L'; subst ips' lerr. clear L'.
    pose proof (proj1 (find_none_iff _ _) F) as Hall.
    rewrite (getIp_candidates w me _ L Hne), F. cbn [fst].
    assert (Hin : In (last ips []) ips).
    { destruct ips as [|c ips]; [now contradiction Hne|].
      rewrite last_cons. clear. revert c.
      induction ips as [|d ips IH]; intros c; [now left|].
      rewrite last_cons. right. apply IH. }
    split; [reflexivity|]. split; [exact Hin | exact (Hall _ Hin)].
Qed.

(** X3. A scheme other than "udp4" and "udp6" puts no family filter on the
    candidates: [getIp] returns the first one that is not on the
    blocklist, whatever its family, and fails only when all are on it. *)
Theorem getIp_other_scheme w me (ips : list IP) :
  net_LookupIP w (url.Hostname (u me)) = (ips, None) ->
  ips <> [] ->
  url.Scheme (u me) <> "udp4" ->
  url.Scheme (u me) <> "udp6" ->
  getIp w me =
  match find (fun ip => negb (ipIsBlocked w ip)) ips with
  | Some ip => (ip, None)
  | None => (last ips [], Some (errors_New "no acceptable ips"))
  end.
Proof.
  intros L Hne H4 H6. rewrite (getIp_candidates w me ips L Hne).
  apply String.eqb_neq in H4. apply String.eqb_neq in H6.
  assert (E : forall l : list IP,
             find (acceptable (ipIsBlocked w) (url.Scheme (u me))) l
             = find (fun ip => negb (ipIsBlocked w ip)) l).
  { induction l as [|c l IH]; [reflexivity|]. cbn [find].
    unfold acceptable at 1, family_matches. rewrite H4, H6, andb_true_r, IH.
    reflexivity. }
  rewrite E. reflexivity.
Qed.

End ResolverMore.

(** ** What an attempt does to the outside *)

Section AnnouncerMore.

Context {R Request TrackerPeer Peers Proxy : Type}.
Variable URL_String : url.URL R -> string.
Variable IP_String : IP -> string.
Variable AppendFromTracker : list TrackerPeer -> Peers.

Implicit Types (w : @world Request TrackerPeer Proxy) (me : @trackerScraper R).

(** The effects of an attempt on each of its three paths. *)
Lemma announce_effects_cases w me (event : tracker.AnnounceEvent) :
  let a := mkAnnounce (cfg_HTTPProxy w) (cfg_HTTPUserAgent w)
             (trackerUrl URL_String IP_String me (fst (getIp w me)))
             (announceRequest w event)
             (url.Host (u me)) (url.Hostname (u me)) (url.Scheme (u me))
             (cfg_PublicIp4 w) (cfg_PublicIp6 w) in
  snd (announce URL_String IP_String AppendFromTracker w me event) =
  match snd (getIp w me) with
  | Some _ => []
  | None =>
      match snd (tracker_Do w a) with
      | Some _ => [EffLog (URL_String (u me)) (announceRequest w event); EffDo a]
      | None =>
          [EffLog (URL_String (u me)) (announceRequest w event); EffDo a;
           EffAddPeers (AppendFromTracker (tracker.Peers (fst (tracker_Do w a))))]
      end
  end.
Proof.
  cbv zeta. unfold announce.
  destruct (getIp w me) as [ip [err|]]; cbn [fst snd]; [reflexivity|].
  destruct (tracker_Do w _) as [res [err|]]; reflexivity.
Qed.

(** X4. Peers are handed to the torrent exactly when the attempt has no
    error, once, and they are the peers of the tracker's response, whose
    number is the [NumPeers] of the result.  When the resolver fails the
    attempt does nothing to the outside: no request is logged and the
    tracker is not contacted. *)
Theorem announce_adds_peers_on_success_only w me (event : tracker.AnnounceEvent) :
  let out := announce URL_String IP_String AppendFromTracker w me event in
  let res := fst (tracker_Do w
                    (mkAnnounce (cfg_HTTPProxy w) (cfg_HTTPUserAgent w)
                       (trackerUrl URL_String IP_String me (fst (getIp w me)))
                       (announceRequest w event)
                       (url.Host (u me)) (url.Hostname (u me)) (url.Scheme (u me))
                       (cfg_PublicIp4 w) (cfg_PublicIp6 w))) in
  (Err (fst out) = None <-> exists ps, In (EffAddPeers ps) (snd out))
  /\ (forall ps, In (EffAddPeers ps) (snd out) ->
        ps = AppendFromTracker (tracker.Peers res)
        /\ NumPeers (fst out) = Z.of_nat (List.length (tracker.Peers res))
        /\ exists pre, snd out = (pre ++ [EffAddPeers ps])%list
                       /\ forall qs, ~ In (EffAddPeers qs) pre)
  /\ (snd (getIp w me) <> None <-> snd out = []).
Proof.
  cbv zeta. rewrite announce_cases, announce_effects_cases. cbv zeta.
  destruct (snd (getIp w me)) as [e1|].
  - split; [|split].
    + split; [discriminate | intros [ps []]].
    + intros ps [].
    + split; [reflexivity | discriminate].
  - destruct (snd (tracker_Do w _)) as [e2|].
    + split; [|split].
      * split; [discriminate|]. intros [ps [H|[H|[]]]]; discriminate H.
      * intros ps [H|[H|[]]]; discriminate H.
      * split; [intros H; now contradiction H | discriminate].
    + split; [|split].
      * split; [|reflexivity]. intros _. eexists. right. right. left. reflexivity.
      * intros ps [H|[H|[H|[]]]]; try discriminate H.
        inversion H; subst ps. split; [reflexivity|]. split; [reflexivity|].
        eexists [_; _]. split; [reflexivity|].
        intros qs [Q|[Q|[]]]; discriminate Q.
      * split; [intros H; now contradiction H | discriminate].
Qed.

(** X5. Whenever an attempt contacts the tracker, it does so once, after
    logging the request, for an address that [getIp] accepted: a candidate
    of the lookup that is not on the blocklist.  The endpoint string is
    [trackerUrl] of that address, while the host header, the server name
    and the network are those of the URL as configured, and the request is
    the torrent's request for the event of the attempt. *)
Theorem announce_contacts_accepted_address w me (event : tracker.AnnounceEvent)
    (a : @Announce Request Proxy) :
  In (EffDo a) (snd (announce URL_String IP_String AppendFromTracker w me event)) ->
  exists ip rest,
    getIp w me = (ip, None)
    /\ In ip (fst (net_LookupIP w (url.Hostname (u me))))
    /\ ipIsBlocked w ip = false
    /\ TrackerUrl a = trackerUrl URL_String IP_String me ip
    /\ HostHeader a = url.Host (u me)
    /\ ServerName a = url.Hostname (u me)
    /\ UdpNetwork a = url.Scheme (u me)
    /\ AnnounceRequest a = announceRequest w event
    /\ snd (announce URL_String IP_String AppendFromTracker w me event)
       = EffLog (URL_String (u me)) (announceRequest w event) :: EffDo a :: rest
    /\ forall b, ~ In (EffDo b) rest.
Proof.
  rewrite announce_effects_cases. cbv zeta.
  destruct (getIp w me) as [ip err] eqn:G. cbn [fst snd].
  destruct err as [e1|]; [intros []|].
  destruct (getIp_accepts w me ip G) as (_ & Hin & Hok).
  assert (Hb : ipIsBlocked w ip = false).
  { unfold acceptable in Hok. apply andb_prop in Hok.
    now destruct (ipIsBlocked w ip). }
  intros H. exists ip.
  destruct (snd (tracker_Do w _)) as [e2|].
  - destruct H as [H|[H|[]]]; [discriminate H|]. inversion H; subst a. clear H.
    exists []. cbn. repeat split; try assumption. intros b [].
  - destruct H as [H|[H|[H|[]]]]; [discriminate H| |discriminate H].
    inversion H; subst a. clear H.
    eexists [_]. cbn. repeat split; try assumption.
    intros b [Q|[]]. discriminate Q.
Qed.

End AnnouncerMore.

(** ** What the loop keeps *)

Section LoopMore.

Context {R Request TrackerPeer Peers Proxy : Type}.
Variable URL_String : url.URL R -> string.
Variable IP_String : IP -> string.
Variable strconv_Quote : string -> string.
Variable Duration_String : time.Duration -> string.
Variable AppendFromTracker : list TrackerPeer -> Peers.

Implicit Types (w : @world Request TrackerPeer Proxy).
Implicit Types (s : @state R Request Peers Proxy).
Implicit Types (ins : list (@input Request TrackerPeer Proxy)).

(** A property that every step keeps is kept by every run. *)
Lemma exec_invariant (P : @state R Request Peers Proxy -> Prop) :
  (forall s i s',
      P s -> step URL_String IP_String AppendFromTracker s i = Some s' -> P s') ->
  forall ins s s',
    P s -> exec URL_String IP_String AppendFromTracker s ins = Some s' -> P s'.
Proof.
  intros Hstep. induction ins as [|i ins IH]; intros s s' Hs Hx; cbn [exec] in Hx.
  - inversion Hx; subst; exact Hs.
  - destruct (step URL_String IP_String AppendFromTracker s i) as [s1|] eqn:S1;
      [|discriminate Hx].
    exact (IH s1 s' (Hstep s i s1 Hs S1) Hx).
Qed.

(** The shape of a step: where it goes and what it changes. *)
Lemma step_inv s (i : @input Request TrackerPeer Proxy) s' :
  step URL_String IP_String AppendFromTracker s i = Some s' ->
  (exists w, i = InWorld w /\ at_ s = AtAnnounce /\ at_ s' = AtWait
             /\ s' = mkState AtWait
                       (mkScraper (u (me s))
                          (fst (announce URL_String IP_String AppendFromTracker
                                  w (me s) (e s))))
                       tracker.None
                       (fst (announce URL_String IP_String AppendFromTracker
                               w (me s) (e s)))
                       (interval s) (wantPeers s) (issued s ++ [e s])
                       (effects s
                        ++ snd (announce URL_String IP_String AppendFromTracker
                                  w (me s) (e s))))
  \/ (exists w, i = InWorld w /\ at_ s = AtDeferred
                /\ s' = mkState Returned (me s) (e s) (ar s) (interval s)
                          (wantPeers s) (issued s ++ [tracker.Stopped])
                          (effects s
                           ++ announceStopped URL_String IP_String
                                AppendFromTracker w (me s)))
  \/ (exists asserted, i = InWantPeers asserted /\ at_ s = AtWait
                       /\ s' = mkState AtSelect (me s) (e s) (ar s)
                                 (if asserted then time.Minute
                                  else Z.max (Interval (ar s)) time.Minute)
                                 (negb asserted) (issued s) (effects s))
  \/ (exists c, i = InSelect c /\ at_ s = AtSelect
                /\ at_ s' = match c with
                            | ReadyClosed => AtDeferred
                            | ReadyWantPeers => AtWait
                            | ReadyTimer => AtAnnounce
                            end
                /\ (c = ReadyWantPeers -> wantPeers s = true)
                /\ s' = mkState (at_ s') (me s) (e s) (ar s) (interval s)
                          (wantPeers s) (issued s) (effects s)).
Proof.
  intros Hs. destruct (at_ s) eqn:P.
  - destruct i as [w|a|c]; try (unfold step in Hs; rewrite P in Hs; discriminate Hs).
    left. exists w. unfold step in Hs. rewrite P in Hs.
    destruct (announce _ _ _ w (me s) (e s)) as [out effs].
    inversion Hs; subst s'. cbn. repeat split.
  - destruct i as [w|a|c]; try (unfold step in Hs; rewrite P in Hs; discriminate Hs).
    right. right. left. exists a.
    rewrite (step_AtWait URL_String IP_String AppendFromTracker s a P) in Hs.
    inversion Hs; subst s'. repeat split.
  - destruct i as [w|a|c]; try (unfold step in Hs; rewrite P in Hs; discriminate Hs).
    right. right. right. exists c. unfold step in Hs. rewrite P in Hs.
    destruct c.
    + inversion Hs; subst s'. cbn. repeat split. discriminate.
    + destruct (wantPeers s) eqn:W; [|discriminate Hs].
      inversion Hs; subst s'. cbn. repeat split.
    + inversion Hs; subst s'. cbn. repeat split. discriminate.
  - destruct i as [w|a|c]; try (unfold step in Hs; rewrite P in Hs; discriminate Hs).
    right. left. exists w. unfold step in Hs. rewrite P in Hs.
    unfold announceStopped.
    destruct (announce _ _ _ w (me s) tracker.Stopped) as [out effs].
    inversion Hs; subst s'. cbn. repeat split.
  - unfold step in Hs. rewrite P in Hs. destruct i; discriminate Hs.
Qed.

(** X6. Through a whole run the URL of the scraper stays the one it was
    started with, and [lastAnnounce] holds what it held at the start until
    the first attempt and, from then on, the result of the latest attempt
    of the loop.  The deferred attempt with [Stopped] leaves the scraper as
    it is: its result is dropped, and only its effects remain. *)
Theorem Run_keeps_last_result (ts : @trackerScraper R) ins s :
  Run URL_String IP_String AppendFromTracker ts ins = Some s ->
  URL (me s) = URL ts
  /\ (issued s = [] -> me s = ts)
  /\ (issued s <> [] -> lastAnnounce (me s) = ar s)
  /\ (at_ s = AtDeferred ->
      forall w, exists s',
        step URL_String IP_String AppendFromTracker s (InWorld w) = Some s'
        /\ at_ s' = Returned
        /\ me s' = me s
        /\ effects s'
           = (effects s
              ++ announceStopped URL_String IP_String AppendFromTracker w (me s))%list).
Proof.
  intros Hr. unfold Run in Hr.
  assert (Inv : u (me s) = u ts
                /\ ((issued s = [] /\ me s = ts /\ at_ s = AtAnnounce)
                    \/ (issued s <> [] /\ lastAnnounce (me s) = ar s))).
  { refine (exec_invariant
              (fun s => u (me s) = u ts
                        /\ ((issued s = [] /\ me s = ts /\ at_ s = AtAnnounce)
                            \/ (issued s <> [] /\ lastAnnounce (me s) = ar s)))
              _ ins (Run_start ts) s _ Hr).
    - clear. intros s i s' [Hu Hd] Hs.
      destruct (step_inv s i s' Hs)
        as [(w & _ & _ & _ & ->)|[(w & _ & P & ->)
           |[(a & _ & P & ->)|(c & _ & P & _ & _ & ->)]]];
        cbn [me u issued lastAnnounce ar at_].
      + split; [exact Hu|]. right. split; [|reflexivity].
        intros E. now apply app_eq_nil in E.
      + split; [exact Hu|]. right.
        destruct Hd as [(_ & _ & Q)|[_ Hl]]; [rewrite P in Q; discriminate Q|].
        split; [|exact Hl]. intros E. now apply app_eq_nil in E.
      + split; [exact Hu|]. right.
        destruct Hd as [(_ & _ & Q)|Hd]; [rewrite P in Q; discriminate Q|exact Hd].
      + split; [exact Hu|]. right.
        destruct Hd as [(_ & _ & Q)|Hd]; [rewrite P in Q; discriminate Q|exact Hd].
    - split; [reflexivity|]. left. now repeat split. }
  destruct Inv as [Hu Hd]. split; [exact Hu|]. split; [|split].
  - intros E. destruct Hd as [(_ & H & _)|[H _]]; [exact H | now contradiction H].
  - intros E. destruct Hd as [(H & _)|[_ H]]; [now contradiction E | exact H].
  - intros P w. unfold step. rewrite P. unfold announceStopped.
    destruct (announce _ _ _ w (me s) tracker.Stopped) as [out effs].
    eexists. repeat split.
Qed.

(** X7. Whenever the loop blocks in its [select], the wait it has set is at
    least one minute and at most the larger of the interval of the latest
    outcome and one minute, and it is exactly one minute when the loop has
    stopped listening to the want-peers signal.  So its timer cannot run
    out before a minute has passed since the attempt completed. *)
Theorem Run_waits_at_least_a_minute (ts : @trackerScraper R) ins s :
  Run URL_String IP_String AppendFromTracker ts ins = Some s ->
  at_ s = AtSelect ->
  time.Minute <= interval s <= Z.max (Interval (ar s)) time.Minute
  /\ (wantPeers s = false -> interval s = time.Minute)
  /\ (forall now, now < Completed (ar s) + time.Minute ->
                  0 < timer now (ar s) (interval s)).
Proof.
  intros Hr P. unfold Run in Hr.
  assert (Inv : at_ s = AtSelect ->
                time.Minute <= interval s <= Z.max (Interval (ar s)) time.Minute
                /\ (wantPeers s = false -> interval s = time.Minute)).
  { refine (exec_invariant
              (fun s => at_ s = AtSelect ->
                 time.Minute <= interval s <= Z.max (Interval (ar s)) time.Minute
                 /\ (wantPeers s = false -> interval s = time.Minute))
              _ ins (Run_start ts) s _ Hr).
    - clear. intros s i s' _ Hs.
      destruct (step_inv s i s' Hs)
        as [(w & _ & _ & Q & _)|[(w & _ & _ & ->)
           |[(a & _ & _ & ->)|(c & _ & _ & Q & _ & _)]]].
      + rewrite Q. discriminate.
      + discriminate.
      + intros _. cbn [interval ar wantPeers].
        destruct a; cbn [negb]; split; try lia; try reflexivity; discriminate.
      + rewrite Q. destruct c; discriminate.
    - discriminate. }
  destruct (Inv P) as [Hb Hw]. split; [exact Hb|]. split; [exact Hw|].
  intros now Hn. unfold timer, time.Until, time.Add. apply Sub_pos. lia.
Qed.

(** Inputs that carry no world leave the outcome and the scraper alone. *)
Lemma exec_no_world_keeps ins :
  forall s s',
    count_worlds ins = O ->
    exec URL_String IP_String AppendFromTracker s ins = Some s' ->
    ar s' = ar s /\ me s' = me s.
Proof.
  induction ins as [|i ins IH]; intros s s' C Hx; cbn [exec] in Hx.
  - inversion Hx; subst. now split.
  - destruct (step URL_String IP_String AppendFromTracker s i) as [s1|] eqn:S1;
      [|discriminate Hx].
    destruct (step_inv s i s1 S1)
      as [(w & -> & _)|[(w & -> & _)
         |[(a & -> & _ & E)|(c & -> & _ & _ & _ & E)]]];
      try discriminate C; cbn [count_worlds] in C;
      destruct (IH s1 s' C Hx) as [Ha Hm]; rewrite E in Ha, Hm;
      cbn [ar me] in Ha, Hm; now split.
Qed.

(** X9. Nothing but the closing of the torrent ends the loop: a run that
    has reached the deferred attempt, or has returned, was given the
    closed case at a [select].  No outcome of an attempt ends it: after
    every attempt of the loop, failed or not, the loop is at [wait]. *)
Theorem only_closed_ends_the_loop (ts : @trackerScraper R) ins s :
  Run URL_String IP_String AppendFromTracker ts ins = Some s ->
  (leaving (at_ s) = true -> In (InSelect ReadyClosed) ins)
  /\ (at_ s = AtAnnounce ->
      forall w, exists s',
        step URL_String IP_String AppendFromTracker s (InWorld w) = Some s'
        /\ at_ s' = AtWait).
Proof.
  intros Hr. split.
  - unfold Run in Hr.
    assert (G : forall ins s0 s1,
               exec URL_String IP_String AppendFromTracker s0 ins = Some s1 ->
               leaving (at_ s0) = false -> leaving (at_ s1) = true ->
               In (InSelect ReadyClosed) ins).
    { clear. induction ins as [|i ins IH]; intros s0 s1 Hx H0 H1; cbn [exec] in Hx.
      - inversion Hx; subst. rewrite H0 in H1. discriminate H1.
      - destruct (step URL_String IP_String AppendFromTracker s0 i) as [s2|] eqn:S2;
          [|discriminate Hx].
        destruct (leaving (at_ s2)) eqn:L2.
        + left.
          destruct (step_inv s0 i s2 S2)
            as [(w & _ & _ & Q & _)|[(w & _ & P & _)
               |[(a & _ & _ & ->)|(c & -> & _ & Q & _ & _)]]].
          * rewrite Q in L2. discriminate L2.
          * rewrite P in H0. discriminate H0.
          * discriminate L2.
          * rewrite Q in L2. destruct c; [reflexivity | discriminate L2 ..].
        + right. exact (IH s2 s1 Hx L2 H1). }
    intros L. exact (G ins (Run_start ts) s Hr eq_refl L).
  - intros P w. unfold step. rewrite P.
    destruct (announce _ _ _ w (me s) (e s)) as [out effs].
    eexists. split; reflexivity.
Qed.

End LoopMore.

(** ** The wait within one cycle *)

Section CycleMore.

Context {R Request TrackerPeer Peers Proxy : Type}.
Variable URL_String : url.URL R -> string.
Variable IP_String : IP -> string.
Variable AppendFromTracker : list TrackerPeer -> Peers.

Implicit Types (s : @state R Request Peers Proxy).
Implicit Types (ins : list (@input Request TrackerPeer Proxy)).

(** At the [select], a loop that still listens to the want-peers signal
    waits for the larger of the interval of the outcome and one minute, and
    one that does not waits for a minute. *)
Lemma select_interval_inv (ts : @trackerScraper R) ins s :
  Run URL_String IP_String AppendFromTracker ts ins = Some s ->
  at_ s = AtSelect ->
  interval s = if wantPeers s then Z.max (Interval (ar s)) time.Minute
               else time.Minute.
Proof.
  intros Hr. unfold Run in Hr.
  refine (exec_invariant URL_String IP_String AppendFromTracker
            (fun s => at_ s = AtSelect ->
                      interval s = if wantPeers s
                                   then Z.max (Interval (ar s)) time.Minute
                                   else time.Minute)
            _ ins (Run_start ts) s _ Hr).
  - clear. intros s i s' _ Hs.
    destruct (step_inv URL_String IP_String AppendFromTracker s i s' Hs)
      as [(w & _ & _ & Q & _)|[(w & _ & _ & ->)
         |[(a & _ & _ & ->)|(c & _ & _ & Q & _ & _)]]].
    + rewrite Q. discriminate.
    + discriminate.
    + intros _. cbn [interval ar wantPeers]. now destruct a.
    + rewrite Q. destruct c; discriminate.
  - discriminate.
Qed.

(** Between two attempts a wait set later is never longer. *)
Lemma wait_bound_in_cycle ins :
  forall s s',
    (at_ s = AtSelect ->
     interval s = if wantPeers s then Z.max (Interval (ar s)) time.Minute
                  else time.Minute) ->
    count_worlds ins = O ->
    exec URL_String IP_String AppendFromTracker s ins = Some s' ->
    at_ s' = AtSelect ->
    interval s' <= match at_ s with
                   | AtSelect => interval s
                   | _ => Z.max (Interval (ar s)) time.Minute
                   end.
Proof.
  induction ins as [|i ins IH]; intros s s' G C Hx P'; cbn [exec] in Hx.
  - inversion Hx; subst s'. rewrite P'. lia.
  - destruct (step URL_String IP_String AppendFromTracker s i) as [s1|] eqn:S1;
      [|discriminate Hx].
    destruct (step_inv URL_String IP_String AppendFromTracker s i s1 S1)
      as [(w & -> & _)|[(w & -> & _)
         |[(a & -> & P & E)|(c & -> & P & Q & Hw & E)]]];
      try discriminate C; cbn [count_worlds] in C.
    + (* from [wait] to the [select] *)
      rewrite P.
      assert (B : interval s1 <= Z.max (Interval (ar s)) time.Minute)
        by (rewrite E; cbn [interval]; destruct a; lia).
      assert (G1 : at_ s1 = AtSelect ->
                   interval s1 = if wantPeers s1
                                 then Z.max (Interval (ar s1)) time.Minute
                                 else time.Minute)
        by (intros _; rewrite E; cbn [interval ar wantPeers]; now destruct a).
      pose proof (IH s1 s' G1 C Hx P') as H1.
      rewrite E in H1 at 1. cbn [at_] in H1. lia.
    + (* out of the [select] *)
      rewrite P. specialize (G P).
      assert (G1 : at_ s1 = AtSelect ->
                   interval s1 = if wantPeers s1
                                 then Z.max (Interval (ar s1)) time.Minute
                                 else time.Minute)
        by (intros Q1; rewrite Q in Q1; destruct c; discriminate Q1).
      pose proof (IH s1 s' G1 C Hx P') as H1.
      rewrite Q in H1. destruct c.
      * (* closed: only a world lets the loop go on *)
        exfalso. destruct ins as [|j ins'].
        -- cbn [exec] in Hx. inversion Hx; subst s'. rewrite Q in P'. discriminate P'.
        -- cbn [exec] in Hx.
           destruct (step URL_String IP_String AppendFromTracker s1 j) as [s2|] eqn:S2;
             [|discriminate Hx].
           destruct (step_inv URL_String IP_String AppendFromTracker s1 j s2 S2)
             as [(w & -> & _)|[(w & -> & _)
                |[(a & _ & P1 & _)|(c & _ & P1 & _)]]];
             try discriminate C; rewrite Q in P1; discriminate P1.
      * rewrite (Hw eq_refl) in G. rewrite E in H1. cbn [ar] in H1. lia.
      * (* timer: only a world lets the loop go on *)
        exfalso. destruct ins as [|j ins'].
        -- cbn [exec] in Hx. inversion Hx; subst s'. rewrite Q in P'. discriminate P'.
        -- cbn [exec] in Hx.
           destruct (step URL_String IP_String AppendFromTracker s1 j) as [s2|] eqn:S2;
             [|discriminate Hx].
           destruct (step_inv URL_String IP_String AppendFromTracker s1 j s2 S2)
             as [(w & -> & _)|[(w & -> & _)
                |[(a & _ & P1 & _)|(c & _ & P1 & _)]]];
             try discriminate C; rewrite Q in P1; discriminate P1.
Qed.

(** X12. Between two attempts the wait is only ever brought down: if the
    loop blocks in its [select], and after some want-peers signals, with
    no attempt in between, blocks in it again, the wait it has then set is
    not longer than before, for the same outcome; so the deadline of the
    timer does not move later. *)
Theorem wait_never_grows_within_a_cycle (ts : @trackerScraper R) ins0 ins s s' :
  Run URL_String IP_String AppendFromTracker ts ins0 = Some s ->
  at_ s = AtSelect ->
  count_worlds ins = O ->
  exec URL_String IP_String AppendFromTracker s ins = Some s' ->
  at_ s' = AtSelect ->
  ar s' = ar s
  /\ interval s' <= interval s
  /\ time.Add (Completed (ar s')) (interval s')
     <= time.Add (Completed (ar s)) (interval s).
Proof.
  intros Hr P C Hx P'.
  pose proof (wait_bound_in_cycle ins s s'
                (select_interval_inv ts ins0 s Hr) C Hx P') as B.
  rewrite P in B.
  destruct (exec_no_world_keeps URL_String IP_String AppendFromTracker
              ins s s' C Hx) as [Ha _].
  split; [exact Ha|]. split; [exact B|]. unfold time.Add. rewrite Ha. lia.
Qed.

End CycleMore.

(** ** What the status line shows of an attempt *)

Section StatusMore.

Context {R Request TrackerPeer Peers Proxy : Type}.
Variable URL_String : url.URL R -> string.
Variable IP_String : IP -> string.
Variable strconv_Quote : string -> string.
Variable Duration_String : time.Duration -> string.
Variable AppendFromTracker : list TrackerPeer -> Peers.

Implicit Types (w : @world Request TrackerPeer Proxy).
Implicit Types (s : @state R Request Peers Proxy).

(** X10. Once the loop has stored an attempt, the summary of the status
    line tells how it went: "error getting ip: " and the resolver's error
    when no address was accepted, "error announcing: " and the tracker
    client's error when the exchange failed, and the number of peers of
    the response followed by " peers" when it succeeded (the clock not
    being at the zero instant). *)
Theorem statusLine_after_attempt s w :
  let a := mkAnnounce (cfg_HTTPProxy w) (cfg_HTTPUserAgent w)
             (trackerUrl URL_String IP_String (me s) (fst (getIp w (me s))))
             (announceRequest w (e s))
             (url.Host (u (me s))) (url.Hostname (u (me s)))
             (url.Scheme (u (me s)))
             (cfg_PublicIp4 w) (cfg_PublicIp6 w) in
  at_ s = AtAnnounce ->
  exists s' summary,
    step URL_String IP_String AppendFromTracker s (InWorld w) = Some s'
    /\ (forall now, exists time_field,
          statusLine URL_String strconv_Quote Duration_String now (me s')
          = strconv_Quote (URL_String (URL (me s)))
            ++ TAB ++ time_field ++ TAB ++ summary)
    /\ (forall err, snd (getIp w (me s)) = Some err ->
          summary = "error getting ip: " ++ Error err)
    /\ (snd (getIp w (me s)) = None ->
        forall err, snd (tracker_Do w a) = Some err ->
          summary = "error announcing: " ++ err)
    /\ (snd (getIp w (me s)) = None ->
        snd (tracker_Do w a) = None ->
        time.IsZero (time_Now w) = false ->
        summary
        = DecimalString.NilZero.string_of_int
            (Z.to_int (Z.of_nat (List.length (tracker.Peers (fst (tracker_Do w a))))))
          ++ " peers").
Proof.
  intros a P.
  pose proof (announce_cases URL_String IP_String AppendFromTracker w (me s) (e s))
    as Hc. cbv zeta in Hc. fold a in Hc.
  unfold step. rewrite P.
  destruct (announce URL_String IP_String AppendFromTracker w (me s) (e s))
    as [out effs]. cbn [fst] in Hc.
  eexists. eexists. split; [reflexivity|]. cbn [me].
  split; [intros now; eexists; unfold statusLine, URL; cbn [u lastAnnounce];
          reflexivity|].
  rewrite Hc. split; [|split].
  - intros err E. rewrite E. reflexivity.
  - intros E err D. rewrite E, D. reflexivity.
  - intros E D Z0. rewrite E, D. cbn [Err Completed NumPeers]. rewrite Z0.
    reflexivity.
Qed.

(** X11. The time field of the status line is "anytime" from the instant
    of the next contact on (the completion of the stored attempt plus its
    interval).  Before that instant, and the clock being past the
    completion, it is a number of whole seconds that is not negative and
    not more than the stored interval. *)
Theorem statusLine_time_field (now : time.Time) (ts : @trackerScraper R) :
  let la := lastAnnounce ts in
  exists time_field summary,
    statusLine URL_String strconv_Quote Duration_String now ts
    = strconv_Quote (URL_String (URL ts)) ++ TAB ++ time_field ++ TAB ++ summary
    /\ (Completed la + Interval la <= now -> time_field = "anytime")
    /\ (now < Completed la + Interval la ->
        exists k, time_field = Duration_String (k * time.Second)
                  /\ 0 <= k
                  /\ (Completed la <= now -> k * time.Second <= Interval la)).
Proof.
  cbv zeta. unfold statusLine, URL.
  set (la := lastAnnounce ts).
  set (remaining := time.Until now (time.Add (Completed la) (Interval la))).
  eexists. eexists. split; [reflexivity|]. split.
  - intros H.
    assert (remaining <= 0) by (apply Sub_nonpos; unfold time.Add; lia).
    destruct (Z.ltb_spec 0 remaining); [lia | reflexivity].
  - intros H.
    assert (Hp : 0 < remaining) by (apply Sub_pos; unfold time.Add; lia).
    destruct (Z.ltb_spec 0 remaining); [|lia].
    destruct (truncate_to_seconds remaining Hp (Sub_range _ _)) as [E B].
    exists (whole_seconds remaining). rewrite E. split; [reflexivity|].
    split.
    + unfold whole_seconds. apply Z.div_pos; [lia | reflexivity].
    + intros Hc.
      assert (remaining <= Interval la).
      { unfold remaining, time.Until, time.Add, time.Sub,
          time.minDuration, time.maxDuration.
        destruct (Z.ltb_spec (Completed la + Interval la - now) (- 2 ^ 63)); [lia|].
        destruct (Z.ltb_spec (2 ^ 63 - 1) (Completed la + Interval la - now)); lia. }
      lia.
Qed.

End StatusMore.

(** ** The further properties on the small session *)

Lemma getIp_success_sound_witness :
  Example.blocklist Example.allowed_v4 = false
  /\ To4 Example.allowed_v4 <> None.
Proof.
  destruct (getIp_success_sound (Example.answering 1800 7 Example.t0)
              Example.udp4_scraper Example.allowed_v4 eq_refl)
    as (_ & _ & Hb & H4 & _).
  split; [exact Hb | apply H4; reflexivity].
Defined.

Lemma getIp_other_scheme_witness :
  getIp (Example.answering 1800 7 Example.t0) Example.http_scraper
  = (Example.allowed_v4, None).
Proof.
  rewrite (getIp_other_scheme (Example.answering 1800 7 Example.t0)
             Example.http_scraper
             [Example.blocked_v4; Example.allowed_v4; Example.allowed_v6]
             eq_refl ltac:(discriminate)
             ltac:(vm_compute; discriminate) ltac:(vm_compute; discriminate)).
  reflexivity.
Defined.

Lemma announce_contacts_accepted_address_witness :
  exists a,
    In (EffDo a)
      (snd (Example.announce (Example.answering 1800 7 Example.t0)
              Example.udp4_scraper tracker.Started))
    /\ exists ip,
        Example.blocklist ip = false
        /\ TrackerUrl a
           = trackerUrl Example.URL_String Example.IP_String
               Example.udp4_scraper ip.
Proof.
  eexists. split.
  - vm_compute. right. left. reflexivity.
  - destruct (announce_contacts_accepted_address Example.URL_String
                Example.IP_String (fun ps => ps)
                (Example.answering 1800 7 Example.t0) Example.udp4_scraper
                tracker.Started _
                ltac:(vm_compute; right; left; reflexivity))
      as (ip & rest & _ & _ & Hb & Hu & _).
    exists ip. split; [exact Hb | exact Hu].
Defined.

Lemma Run_keeps_last_result_witness :
  exists s,
    Example.Run Example.udp4_scraper Example.script = Some s
    /\ URL (me s) = URL Example.udp4_scraper
    /\ lastAnnounce (me s) = ar s.
Proof.
  eexists. split; [vm_compute; reflexivity|].
  destruct (Run_keeps_last_result Example.URL_String Example.IP_String
              (fun ps => ps) Example.udp4_scraper Example.script _
              ltac:(vm_compute; reflexivity))
    as (Hu & _ & Hl & _).
  split; [exact Hu | apply Hl; discriminate].
Defined.

Lemma Run_waits_at_least_a_minute_witness :
  exists s,
    Example.Run Example.udp4_scraper
      [InWorld (Example.answering 1800 7 Example.t0); InWantPeers true] = Some s
    /\ time.Minute <= interval s <= Z.max (Interval (ar s)) time.Minute.
Proof.
  eexists. split; [vm_compute; reflexivity|].
  apply (Run_waits_at_least_a_minute Example.URL_String Example.IP_String
           (fun ps => ps) Example.udp4_scraper
           [InWorld (Example.answering 1800 7 Example.t0); InWantPeers true] _
           ltac:(vm_compute; reflexivity) eq_refl).
Defined.

Lemma only_closed_ends_the_loop_witness :
  In (InSelect ReadyClosed) Example.script.
Proof.
  refine (proj1 (only_closed_ends_the_loop Example.URL_String Example.IP_String
                   (fun ps => ps) Example.udp4_scraper Example.script _
                   ltac:(vm_compute; reflexivity)) eq_refl).
Defined.

Lemma statusLine_after_attempt_witness :
  exists s' summary,
    Example.step Example.fresh (InWorld (Example.failing Example.t0)) = Some s'
    /\ summary = "error announcing: connection refused"
    /\ forall now, exists time_field,
         Example.statusLine now (me s')
         = Example.Quote (Example.URL_String (URL Example.udp4_scraper))
           ++ TAB ++ time_field ++ TAB ++ summary.
Proof.
  destruct (statusLine_after_attempt Example.URL_String Example.IP_String
              Example.Quote Example.Duration_String (fun ps => ps)
              Example.fresh (Example.failing Example.t0) eq_refl)
    as (s' & summary & Hs & Hl & _ & Hd & _).
  exists s', summary. split; [exact Hs|]. split; [|exact Hl].
  exact (Hd eq_refl "connection refused" eq_refl).
Defined.

Lemma wait_never_grows_within_a_cycle_witness :
  exists s s',
    Example.Run Example.udp4_scraper
      [InWorld (Example.answering 1800 7 Example.t0); InWantPeers false] = Some s
    /\ exec Example.URL_String Example.IP_String (fun ps => ps) s
         [InSelect ReadyWantPeers; InWantPeers true] = Some s'
    /\ interval s = 30 * time.Minute
    /\ interval s' = time.Minute
    /\ interval s' <= interval s.
Proof.
  eexists. eexists. split; [vm_compute; reflexivity|].
  split; [vm_compute; reflexivity|].
  split; [reflexivity|]. split; [reflexivity|].
  apply (wait_never_grows_within_a_cycle Example.URL_String Example.IP_String
           (fun ps => ps) Example.udp4_scraper
           [InWorld (Example.answering 1800 7 Example.t0); InWantPeers false]
           [InSelect ReadyWantPeers; InWantPeers true] _ _
           ltac:(vm_compute; reflexivity) eq_refl eq_refl
           ltac:(vm_compute; reflexivity) eq_refl).
Defined.
